(** * SwissFamilyPlan: the year-by-year projection engine

    A shallow embedding of the finance engine of SwissFamilyPlan and the
    properties its specification states about it.

    Two copies of the engine live in the repository and both are embedded:
      - [Services]: src/services/financeEngine.ts (lines 1-245);
      - [Part000]:  src/unnamed/part_000, the older copy.
    They share most of their text; the places where they differ are
    selected by a [Variant] argument and marked in the definitions.

    Numbers.  JavaScript numbers are modelled as exact rationals ([Q]):
    rounding, NaN and infinities of IEEE doubles are outside the model.
    Ages, child counts and child ages are integers ([Z]).  Equality of
    amounts is [Qeq] ([==]).  The calendar year read from the clock
    ([new Date().getFullYear()]) is the parameter [startYear].

    The one place where the engine itself makes a NaN out of rational
    inputs is the tax factor: [getTaxFactor] indexes a plain object, so a
    canton named like a property inherited from [Object.prototype] finds a
    function instead of a number, and every product with it is NaN.
    [getTaxFactor] returns [Inherited] there.  The statements that bound
    or compare the amounts of a run for a whole class of profiles assume
    [taxFactorIsNumber]. *)

From Stdlib Require Import ZArith QArith Qpower Lqa Lia List String Bool.
Import ListNotations.
Local Open Scope Z_scope.
Local Open Scope Q_scope.

(** ** JavaScript helpers *)

Definition Qltb (a b : Q) : bool := negb (Qle_bool b a).
Definition Qleb (a b : Q) : bool := Qle_bool a b.

Module Math.
Definition max (a b : Q) : Q := if Qleb a b then b else a.
Definition min (a b : Q) : Q := if Qleb a b then a else b.
  (** [Math.pow] at an integer exponent. *)
Definition pow (x : Q) (n : Z) : Q := Qpower x n.
End Math.

(** [a ?? b] on an optional field. *)
Definition orElse {A : Type} (a : option A) (b : A) : A :=
  match a with Some x => x | None => b end.

(** ** types.ts *)

Inductive ScenarioType := pessimistic | neutral | optimistic.
Inductive CareerStage := junior | mid | senior | executive.
Inductive HousingStatus := rent | own.
Inductive LuxuryLevel := humble | comfortable | luxury.

Record FinancialData := mkFinancialData {
  currentAge : Z;
  retirementAge : Z;
  currentChildren : Z;
  futureChildren : Z;
  firstChildBirthYearOffset : option Z;
  childSpacingYears : option Z;
  annualGrossSalary1 : Q;
  annualGrossSalary2 : Q;
  careerStage1 : CareerStage;
  careerStage2 : CareerStage;
  annualBonus : Q;
  expectedSalaryIncrease : option Q;
  currentSavings : Q;
  monthlyContribution : Q;
  investmentReturn : Q;
  pillar2Balance1 : Q;
  pillar2Balance2 : Q;
  pillar3Balance1 : Q;
  pillar3Balance2 : Q;
  pillar3AnnualContribution1 : Q;
  pillar3AnnualContribution2 : Q;
  housingStatus : HousingStatus;
  currentHousingCost : Q;
  currentRooms : Q;
  housingCostIncrease : Q;
  monthlyLivingCost : Q;
  monthlyDaycareCost : Q;
  monthlySchoolActivityCost : Q;
  yearlyTravelBudget : Q;
  universitySupport : Q;
  canton : string;
  luxuryLevel : LuxuryLevel
}.

Module ProjectionPoint.
Record t := mk {
    age : Z;
    year : Z;
    totalGrossIncome : Q;
    totalIncome : Q;
    salary1 : Q;
    salary2 : Q;
    bonus : Q;
    pensionAHV : Q;
    pensionLPP : Q;
    pension3a : Q;
    pension : Q;
    activeChildren : Z;
    housingExpenses : Q;
    livingExpenses : Q;
    childrenExpenses : Q;
    travelExpenses : Q;
    totalExpenses : Q;
    yearlyContribution : Q;
    yearlySavings : Q;
    cashSavings : Q;
    investedAssets : Q;
    pillar2Wealth : Q;
    pillar3Wealth : Q;
    pensionWealth : Q;
    investmentGrowth : Q;
    totalWealth : Q;
    isDeficit : bool;
    notes : option (list string)
  }.
End ProjectionPoint.

Module ScenarioResult.
Record t := mk {
    type : ScenarioType;
    label : ScenarioType;
    data : list ProjectionPoint.t;
    finalWealth : Q;
    maxWealth : Q;
    isViable : bool;
    savingsDepletedAge : option Z
  }.
End ScenarioResult.

(** ** The engine *)

(** Which copy of the engine. *)
Inductive Variant := Services | Part000.

Record ScenarioModifiers := mkModifiers {
  salaryGrowthModPct : Q;
  returnModPct : Q;
  inflationModPct : Q;
  expenseMultiplier : option Q
}.

Definition DEFAULT_MAX_AGE : Z := 90.
Definition RETIREMENT_SAFETY_BUFFER : Q := 100000.
Definition AHV_COUPLE_MAX_ANNUAL_2025 : Q := 44100.
Definition LPP_CONVERSION_RATE : Q := 0.058.
Definition LPP_INTEREST_RATE : Q := 0.02.

Definition taxFactorByCanton : list (string * Q) :=
  [ ("Zürich"%string, 0.78); ("Zurich"%string, 0.78); ("Zug"%string, 0.82);
    ("Geneva"%string, 0.70); ("Vaud"%string, 0.73); ("default"%string, 0.75) ].

Fixpoint lookup (k : string) (tbl : list (string * Q)) : option Q :=
  match tbl with
  | [] => None
  | (k', x) :: rest => if String.eqb k k' then Some x else lookup k rest
  end.

(** The property names every object inherits from [Object.prototype]
    (ECMAScript 20.1.3 and B.2.2).  Indexing the table with one of them
    finds a function, or for [__proto__] the prototype object: a value
    that is not nullish, so [??] does not fall back to the default. *)
Definition objectPrototypeKeys : list string :=
  [ "constructor"%string; "hasOwnProperty"%string; "isPrototypeOf"%string;
    "propertyIsEnumerable"%string; "toLocaleString"%string; "toString"%string;
    "valueOf"%string; "__proto__"%string; "__defineGetter__"%string;
    "__defineSetter__"%string; "__lookupGetter__"%string;
    "__lookupSetter__"%string ].

(** What [getTaxFactor] returns: a number of the table, or a function or
    object inherited from [Object.prototype]. *)
Inductive Looked := Number (q : Q) | Inherited.

(** [taxFactorByCanton.default] *)
Definition defaultTaxFactor : Q := orElse (lookup "default" taxFactorByCanton) 0.

(** [!canton] holds of the empty string.  [taxFactorByCanton[canton]] finds
    the table's own keys first, then the inherited ones; only a canton that
    is neither is [undefined] and falls back to the default. *)
Definition getTaxFactor (canton : string) : Looked :=
  if String.eqb canton EmptyString then Number defaultTaxFactor
  else
    match lookup canton taxFactorByCanton with
    | Some x => Number x
    | None =>
        if existsb (String.eqb canton) objectPrototypeKeys then Inherited
        else Number defaultTaxFactor
    end.

(** A looked-up value as a factor of a product.  Of a function or object
    JavaScript makes NaN, which the number model does not hold: [0] stands
    in its place, and no amount computed from it describes the source. *)
Definition asFactor (v : Looked) : Q :=
  match v with Number q => q | Inherited => 0 end.

Definition computeChildrenSchedule (data : FinancialData) : list Z :=
  let existing :=
    map (fun i => 2 + Z.of_nat i * 2)%Z (seq 0 (Z.to_nat (currentChildren data))) in
  let firstOffset := orElse (firstChildBirthYearOffset data) 1%Z in
  let spacing := orElse (childSpacingYears data) 2%Z in
  let future :=
    map (fun j => - (firstOffset + Z.of_nat j * spacing))%Z
        (seq 0 (Z.to_nat (futureChildren data))) in
  existing ++ future.

Definition getSalaryGrowthRate (age : Z) (stage : CareerStage) (baseInflation : Q) : Q :=
  let careerBoost :=
    if (age <? 35)%Z then
      match stage with junior => 0.035 | mid => 0.025 | _ => 0.015 end
    else if (age <? 45)%Z then
      match stage with
      | junior => 0.025 | mid => 0.020 | senior => 0.015 | executive => 0.020
      end
    else if (age <? 55)%Z then 0.01
    else 0.00 in
  baseInflation + careerBoost.

Definition modifiersOf (scenario : ScenarioType) : ScenarioModifiers :=
  match scenario with
  | pessimistic => mkModifiers (-0.5) (-2.0) 1.0 (Some 1.05)
  | optimistic => mkModifiers 0.5 1.5 (-0.5) (Some 0.95)
  | neutral => mkModifiers 0 0 0 (Some 1.0)
  end.

(** The variables of [calculateProjections] that live across iterations of
    its loop. *)
Record Locals := mkLocals {
  grossSalary1 : Q;
  grossSalary2 : Q;
  grossBonus : Q;
  pillar2Wealth : Q;
  pillar3Wealth : Q;
  cashBuffer : Q;
  investedWealth : Q;
  ahvAnnualPensionSnapshot : Q;
  lppAnnualPensionSnapshot : Q;
  pillar3AnnualDrawdownSnapshot : Q;
  retirementSnapshotTaken : bool;
  childrenAges : list Z;
  points : list ProjectionPoint.t;
  maxWealth : Q;
  savingsDepletedAge : option Z;
  currentRent : Q;
  hasMovedHouse : bool
}.

(** The variables declared afresh in every iteration and assigned in the
    working or the retirement branch. *)
Record YearVars := mkYearVars {
  totalIncomeNet : Q;
  totalGrossIncome : Q;
  pensionAHV : Q;
  pensionLPP : Q;
  pension3a : Q;
  annualSavingsCapacity : Q;
  notes : list string
}.

(** What one pass of the inner loop over [childrenAges] leaves behind. *)
Record ChildrenPass := mkChildrenPass {
  agedChildren : list Z;
  annualChildrenExpenses : Q;
  activeChildrenCount : Z
}.

Definition noteMoved : string := "Mudança: Pis més gran".
Definition noteRetired : string := "Jubilació: Inici Rendes".
Definition noteDepleted : string := "⚠️ Fons Esgotats".

(** The deficit branch, written twice in the source with the same text:
    the cash buffer absorbs the deficit first, the invested wealth the
    rest, floored at zero.  Returns the new cash buffer and invested
    wealth. *)
Definition absorbDeficit (cashBuffer investedWealth deficit : Q) : Q * Q :=
  if Qleb deficit cashBuffer then (cashBuffer - deficit, investedWealth)
  else
    let remaining := deficit - cashBuffer in
    (0, Math.max 0 (investedWealth - remaining)).

(** The allocation of the working branch: a positive saving capacity is
    split 30/70 between cash and investments, anything else is absorbed. *)
Definition workingLedger (cashBuffer investedWealth annualSavingsCapacity : Q) : Q * Q :=
  if Qltb 0 annualSavingsCapacity then
    (cashBuffer + annualSavingsCapacity * 0.3,
     investedWealth + annualSavingsCapacity * 0.7)
  else absorbDeficit cashBuffer investedWealth (- annualSavingsCapacity).

(** The allocation of the retirement branch: a surplus goes to cash. *)
Definition retiredLedger (cashBuffer investedWealth annualSavingsCapacity : Q) : Q * Q :=
  if Qleb 0 annualSavingsCapacity then
    (cashBuffer + annualSavingsCapacity, investedWealth)
  else absorbDeficit cashBuffer investedWealth (- annualSavingsCapacity).

Section Run.
Variable variant : Variant.
Variable startYear : Z.
Variable data : FinancialData.
Variable scenario : ScenarioType.

Definition modifiers : ScenarioModifiers := modifiersOf scenario.
Definition expenseFactor : Q := orElse (expenseMultiplier modifiers) 1.
Definition taxFactor : Q := asFactor (getTaxFactor (canton data)).
Definition baseInflationPct : Q :=
    orElse (expectedSalaryIncrease data) 1.5 + inflationModPct modifiers.
Definition effectiveInvestmentReturnPct : Q :=
    Math.max 0 (investmentReturn data + returnModPct modifiers).

  (** University phase: the full support in [Services]; in [Part000] the
      support or 25000 when it is not positive, 12000 for a humble
      household. *)
Definition universityCost : Q :=
    match variant with
    | Services => universitySupport data
    | Part000 =>
        let uniCost :=
          if Qltb 0 (universitySupport data) then universitySupport data else 25000 in
        match luxuryLevel data with humble => 12000 | _ => uniCost end
    end.

  (** The inner loop over the child slots, in slot order. *)
Fixpoint childrenLoop (ages : list Z) (expenses : Q) (active : Z) : ChildrenPass :=
    match ages with
    | [] => mkChildrenPass [] expenses active
    | childAge :: rest =>
        if (childAge <? 0)%Z then
          let r := childrenLoop rest expenses active in
          mkChildrenPass ((childAge + 1)%Z :: agedChildren r)
                         (annualChildrenExpenses r) (activeChildrenCount r)
        else
          let active' :=
            if ((0 <=? childAge) && (childAge <? 25))%Z then (active + 1)%Z else active in
          let expenses' :=
            if (childAge <? 5)%Z then expenses + monthlyDaycareCost data * 12
            else if ((5 <=? childAge) && (childAge <? 19))%Z
                 then expenses + monthlySchoolActivityCost data * 12
            else if ((19 <=? childAge) && (childAge <? 25))%Z
                 then expenses + universityCost
            else expenses in
          let r := childrenLoop rest expenses' active' in
          mkChildrenPass ((childAge + 1)%Z :: agedChildren r)
                         (annualChildrenExpenses r) (activeChildrenCount r)
    end.

  (** [if (!isRetired) { ... }] *)
Definition workingPhase (age : Z) (totalExpenses : Q) (notes : list string)
             (st : Locals) : Locals * YearVars :=
    let growthRate1 := getSalaryGrowthRate age (careerStage1 data) (baseInflationPct / 100) in
    let growthRate2 := getSalaryGrowthRate age (careerStage2 data) (baseInflationPct / 100) in
    let salaryNet1 := grossSalary1 st * taxFactor in
    let salaryNet2 := grossSalary2 st * taxFactor in
    let bonusNet := grossBonus st * 0.65 in
    let totalGrossIncome := grossSalary1 st + grossSalary2 st + grossBonus st in
    let totalIncomeNet := salaryNet1 + salaryNet2 + bonusNet in
    let plannedP3 := pillar3AnnualContribution1 data + pillar3AnnualContribution2 data in
    let actualP3 :=
      if Qleb plannedP3 totalIncomeNet then plannedP3
      else match variant with
           | Services => Math.max 0 totalIncomeNet
           | Part000 => totalIncomeNet
           end in
    let annualSavingsCapacity := totalIncomeNet - actualP3 - totalExpenses in
    let lppContribution := (grossSalary1 st + grossSalary2 st) * 0.12 in
    let pillar2Wealth' := pillar2Wealth st * (1 + LPP_INTEREST_RATE) + lppContribution in
    let pillar3Wealth' :=
      pillar3Wealth st * (1 + effectiveInvestmentReturnPct / 100) + actualP3 in
    let ledger := workingLedger (cashBuffer st) (investedWealth st) annualSavingsCapacity in
    let investedWealth' := snd ledger * (1 + effectiveInvestmentReturnPct / 100) in
    ( mkLocals
        (grossSalary1 st * (1 + growthRate1 + salaryGrowthModPct modifiers / 100))
        (grossSalary2 st * (1 + growthRate2 + salaryGrowthModPct modifiers / 100))
        (grossBonus st * (1 + baseInflationPct / 100))
        pillar2Wealth' pillar3Wealth' (fst ledger) investedWealth'
        (ahvAnnualPensionSnapshot st) (lppAnnualPensionSnapshot st)
        (pillar3AnnualDrawdownSnapshot st) (retirementSnapshotTaken st)
        (childrenAges st) (points st) (maxWealth st) (savingsDepletedAge st)
        (currentRent st) (hasMovedHouse st),
      mkYearVars totalIncomeNet totalGrossIncome 0 0 0 annualSavingsCapacity notes ).

  (** [else { ... }]: the retirement branch. *)
Definition retirementPhase (inflationFactor totalExpenses : Q) (notes : list string)
             (st : Locals) : Locals * YearVars :=
    let takeSnapshot := negb (retirementSnapshotTaken st) in
    let ahvSnapshot :=
      if takeSnapshot then AHV_COUPLE_MAX_ANNUAL_2025 * inflationFactor
      else ahvAnnualPensionSnapshot st in
    let lppSnapshot :=
      if takeSnapshot then pillar2Wealth st * LPP_CONVERSION_RATE
      else lppAnnualPensionSnapshot st in
    let drawdownSnapshot :=
      if takeSnapshot then
        pillar3Wealth st
          / Math.max 1 (inject_Z (DEFAULT_MAX_AGE - retirementAge data))
      else pillar3AnnualDrawdownSnapshot st in
    let notes' :=
      if takeSnapshot then
        match variant with
        | Services => notes
        | Part000 => notes ++ [noteRetired]
        end
      else notes in
    let pensionAHV := AHV_COUPLE_MAX_ANNUAL_2025 * inflationFactor in
    let pensionLPP := lppSnapshot in
    let pension3a :=
      match variant with
      | Services => Math.min (pillar3Wealth st) drawdownSnapshot
      | Part000 =>
          if Qltb 0 (pillar3Wealth st) then
            if Qltb (pillar3Wealth st) drawdownSnapshot then pillar3Wealth st
            else drawdownSnapshot
          else 0
      end in
    let totalGrossIncome := pensionAHV + pensionLPP + pension3a in
    let totalIncomeNet := totalGrossIncome * 0.85 in
    let annualSavingsCapacity := totalIncomeNet - totalExpenses in
    let pillar3Wealth' :=
      Math.max 0 (pillar3Wealth st - pension3a)
      * (1 + (effectiveInvestmentReturnPct / 100) * 0.3) in
    let ledger := retiredLedger (cashBuffer st) (investedWealth st) annualSavingsCapacity in
    let investedWealth' := snd ledger * (1 + effectiveInvestmentReturnPct / 100) in
    ( mkLocals
        (grossSalary1 st) (grossSalary2 st) (grossBonus st)
        0 pillar3Wealth' (fst ledger) investedWealth'
        ahvSnapshot lppSnapshot drawdownSnapshot true
        (childrenAges st) (points st) (maxWealth st) (savingsDepletedAge st)
        (currentRent st) (hasMovedHouse st),
      mkYearVars totalIncomeNet totalGrossIncome pensionAHV pensionLPP pension3a
                 annualSavingsCapacity notes' ).

  (** The state before the first iteration. *)
Definition initialLocals : Locals :=
    let freeSavingsWealth := currentSavings data in
    mkLocals
      (annualGrossSalary1 data) (annualGrossSalary2 data) (annualBonus data)
      (pillar2Balance1 data + pillar2Balance2 data)
      (pillar3Balance1 data + pillar3Balance2 data)
      (freeSavingsWealth * 0.3) (freeSavingsWealth * 0.7)
      0 0 0 false
      (computeChildrenSchedule data) [] 0 None
      (currentHousingCost data) false.

  (** The rent after the yearly increase, before the relocation test. *)
Definition inflatedRent (st : Locals) : Q :=
    currentRent st * (1 + (housingCostIncrease data + inflationModPct modifiers) / 100).

  (** The guard of the relocation block, given this year's active children. *)
Definition relocates (st : Locals) (active : Z) : bool :=
    negb (hasMovedHouse st)
    && Qltb (currentRooms data + 0.5) (inject_Z (2 + active)).

  (** The depletion test; [Part000] nests a second condition in it. *)
Definition depletes (totalWealth : Q) (st : Locals) : bool :=
    Qltb totalWealth 0
    && match savingsDepletedAge st with None => true | Some _ => false end
    && match variant with
       | Services => true
       | Part000 =>
           Qleb (cashBuffer st + investedWealth st) 100 && Qleb (pillar3Wealth st) 100
       end.

  (** One iteration of the loop over [age], given what its inner loop over
      the children leaves. *)
Definition yearStep (age : Z) (pass : ChildrenPass) (st : Locals) : Locals :=
    let yearIndex := (age - currentAge data)%Z in
    let year := (startYear + yearIndex)%Z in
    let isRetired := (retirementAge data <=? age)%Z in
    let inflationFactor := Math.pow (1 + baseInflationPct / 100) yearIndex in
    let childrenExpenses := annualChildrenExpenses pass * expenseFactor in
    let moves := relocates st (activeChildrenCount pass) in
    let rent' := if moves then inflatedRent st * 1.30 else inflatedRent st in
    let notes0 := if moves then [noteMoved] else [] in
    let livingAnnual := monthlyLivingCost data * 12 * inflationFactor * expenseFactor in
    let travelAnnual := yearlyTravelBudget data * inflationFactor * expenseFactor in
    let housingAnnual := rent' * 12 in
    let totalExpenses := housingAnnual + livingAnnual + childrenExpenses + travelAnnual in
    let st1 :=
      mkLocals
        (grossSalary1 st) (grossSalary2 st) (grossBonus st)
        (pillar2Wealth st) (pillar3Wealth st) (cashBuffer st) (investedWealth st)
        (ahvAnnualPensionSnapshot st) (lppAnnualPensionSnapshot st)
        (pillar3AnnualDrawdownSnapshot st) (retirementSnapshotTaken st)
        (agedChildren pass) (points st) (maxWealth st) (savingsDepletedAge st)
        rent' (if moves then true else hasMovedHouse st) in
    let phase :=
      if negb isRetired then workingPhase age totalExpenses notes0 st1
      else retirementPhase inflationFactor totalExpenses notes0 st1 in
    let st2 := fst phase in
    let yv := snd phase in
    let totalWealth :=
      cashBuffer st2 + investedWealth st2 + pillar2Wealth st2 + pillar3Wealth st2 in
    let maxWealth' := if Qltb (maxWealth st2) totalWealth then totalWealth else maxWealth st2 in
    let depleted := depletes totalWealth st2 in
    let notes2 := if depleted then notes yv ++ [noteDepleted] else notes yv in
    let point :=
      ProjectionPoint.mk
        age year (totalGrossIncome yv) (totalIncomeNet yv)
        (if isRetired then 0 else grossSalary1 st2 * taxFactor)
        (if isRetired then 0 else grossSalary2 st2 * taxFactor)
        (if isRetired then 0 else grossBonus st2 * 0.65)
        (pensionAHV yv) (pensionLPP yv) (pension3a yv)
        (pensionAHV yv + pensionLPP yv + pension3a yv)
        (activeChildrenCount pass)
        housingAnnual livingAnnual childrenExpenses travelAnnual
        totalExpenses 0 (annualSavingsCapacity yv)
        (cashBuffer st2) (investedWealth st2) (pillar2Wealth st2) (pillar3Wealth st2)
        (pillar2Wealth st2 + pillar3Wealth st2)
        0 totalWealth (Qltb (annualSavingsCapacity yv) 0)
        (match notes2 with [] => None | _ => Some notes2 end) in
    mkLocals
      (grossSalary1 st2) (grossSalary2 st2) (grossBonus st2)
      (pillar2Wealth st2) (pillar3Wealth st2) (cashBuffer st2) (investedWealth st2)
      (ahvAnnualPensionSnapshot st2) (lppAnnualPensionSnapshot st2)
      (pillar3AnnualDrawdownSnapshot st2) (retirementSnapshotTaken st2)
      (childrenAges st2) (points st2 ++ [point]) maxWealth'
      (if depleted then Some age else savingsDepletedAge st2)
      (currentRent st2) (hasMovedHouse st2).

  (** One iteration of the loop over [age]. *)
Definition body (age : Z) (st : Locals) : Locals :=
    yearStep age (childrenLoop (childrenAges st) 0 0) st.

  (** [for (let age = ...; age <= DEFAULT_MAX_AGE; age++)], with the number
      of iterations still allowed as fuel. *)
Fixpoint forLoop (fuel : nat) (age : Z) (st : Locals) : Locals :=
    match fuel with
    | O => st
    | S fuel' =>
        if (age <=? DEFAULT_MAX_AGE)%Z then forLoop fuel' (age + 1)%Z (body age st)
        else st
    end.

  (** The iterations the loop makes: ages [currentAge .. 90]. *)
Definition horizon : nat := Z.to_nat (DEFAULT_MAX_AGE + 1 - currentAge data).

  (** The locals after the first [k] iterations. *)
Definition localsAfter (k : nat) : Locals := forLoop k (currentAge data) initialLocals.

Definition finalLocals : Locals := localsAfter horizon.

  (** [points[points.length - 1]?.totalWealth ?? 0] *)
Definition lastTotalWealth (pts : list ProjectionPoint.t) : Q :=
    orElse (option_map ProjectionPoint.totalWealth
                       (nth_error pts (List.length pts - 1))) 0.

(** [return { type: scenario, ... }] *)
Definition resultOf (st : Locals) : ScenarioResult.t :=
  ScenarioResult.mk
    scenario scenario (points st)
    (lastTotalWealth (points st))
    (maxWealth st)
    (match variant with
     | Services => Qleb 0 (lastTotalWealth (points st))
     | Part000 => match savingsDepletedAge st with None => true | Some _ => false end
     end)
    (savingsDepletedAge st).

Definition calculateProjections : ScenarioResult.t := resultOf finalLocals.
End Run.

(** [JSON.parse(JSON.stringify(d))]: a fresh object with the same fields. *)
Definition clone (d : FinancialData) : FinancialData := d.

Definition runAllScenarios (variant : Variant) (startYear : Z) (data : FinancialData)
  : list ScenarioResult.t :=
  [ calculateProjections variant startYear (clone data) pessimistic;
    calculateProjections variant startYear (clone data) neutral;
    calculateProjections variant startYear (clone data) optimistic ].

(** [testData.retirementAge = testAge] on the clone. *)
Definition setRetirementAge (d : FinancialData) (a : Z) : FinancialData :=
  mkFinancialData
    (currentAge d) a (currentChildren d) (futureChildren d)
    (firstChildBirthYearOffset d) (childSpacingYears d)
    (annualGrossSalary1 d) (annualGrossSalary2 d) (careerStage1 d) (careerStage2 d)
    (annualBonus d) (expectedSalaryIncrease d) (currentSavings d)
    (monthlyContribution d) (investmentReturn d)
    (pillar2Balance1 d) (pillar2Balance2 d) (pillar3Balance1 d) (pillar3Balance2 d)
    (pillar3AnnualContribution1 d) (pillar3AnnualContribution2 d)
    (housingStatus d) (currentHousingCost d) (currentRooms d) (housingCostIncrease d)
    (monthlyLivingCost d) (monthlyDaycareCost d) (monthlySchoolActivityCost d)
    (yearlyTravelBudget d) (universitySupport d) (canton d) (luxuryLevel d).

Section EarlyRetirement.
Variable variant : Variant.
Variable startYear : Z.
Variable data : FinancialData.

  (** The first candidate age of the scan. *)
Definition firstTestAge : Z :=
    match variant with Services => 45 | Part000 => 50 end.

  (** The last candidate age of the scan. *)
Definition lastTestAge : Z :=
    match variant with
    | Services => 65
    | Part000 => Z.max (retirementAge data) 65
    end.

  (** The neutral run with the retirement age overridden. *)
Definition testRun (testAge : Z) : ScenarioResult.t :=
    let testData := setRetirementAge (clone data) testAge in
    calculateProjections variant startYear testData neutral.

  (** The test under which a candidate age is returned. *)
Definition accepts (result : ScenarioResult.t) : bool :=
    match variant with
    | Services => Qltb RETIREMENT_SAFETY_BUFFER (ScenarioResult.finalWealth result)
    | Part000 => ScenarioResult.isViable result
    end.

Fixpoint searchLoop (fuel : nat) (testAge : Z) : option Z :=
    match fuel with
    | O => None
    | S fuel' =>
        if (testAge <=? lastTestAge)%Z then
          if accepts (testRun testAge) then Some testAge
          else searchLoop fuel' (testAge + 1)%Z
        else None
    end.

Definition calculateViableEarlyRetirement : option Z :=
    searchLoop (Z.to_nat (lastTestAge + 1 - firstTestAge)) firstTestAge.
End EarlyRetirement.

(** ** A sample household ([initialData] of src/App.tsx, lines 18-50) *)

Definition sampleProfile : FinancialData :=
  mkFinancialData
    30 65 0 2 (Some 1%Z) (Some 2%Z)
    110000 90000 mid mid 0 (Some 2.0) 150000 2500 4.5
    50000 20000 14000 0 7056 3000
    rent 1800 3.5 2.0 6000 2500 400 6000 25000 "Zürich" comfortable.

(** A couple in its last working year: [initialData] at age 89, retiring
    at 90. *)
Definition lateCareer : FinancialData :=
  mkFinancialData
    89 90 0 2 (Some 1%Z) (Some 2%Z)
    110000 90000 mid mid 0 (Some 2.0) 150000 2500 4.5
    50000 20000 14000 0 7056 3000
    rent 1800 3.5 2.0 6000 2500 400 6000 25000 "Zürich" comfortable.

(** A couple retiring at 89 with the public pension as its only income
    and no expenses entered. *)
Definition pensioners : FinancialData :=
  mkFinancialData
    89 89 0 0 None None
    0 0 mid mid 0 None 0 0 0
    0 0 0 0 0 0
    rent 0 3.5 0 0 0 0 0 0 "" comfortable.

(** [pensioners] with a base inflation of zero percent. *)
Definition pensionersFlat : FinancialData :=
  mkFinancialData
    89 89 0 0 None None
    0 0 mid mid 0 (Some 0) 0 0 0
    0 0 0 0 0 0
    rent 0 3.5 0 0 0 0 0 0 "" comfortable.

(** A household with a debt of 1000 in place of savings, in the one year
    its run covers; nothing else is set. *)
Definition debtors : FinancialData :=
  mkFinancialData
    90 65 0 0 None None
    0 0 mid mid 0 None (-1000) 0 0
    0 0 0 0 0 0
    rent 0 3.5 0 0 0 0 0 0 "" comfortable.

(** A couple of 89 that plans to work until 95. *)
Definition workingPast90 : FinancialData :=
  mkFinancialData
    89 95 0 0 None None
    110000 90000 mid mid 0 (Some 2.0) 150000 2500 4.5
    50000 20000 14000 0 7056 3000
    rent 1800 3.5 2.0 6000 2500 400 6000 25000 "Zürich" comfortable.

(** A family of five in 3.5 rooms at a rent of 1800 that rises by 2
    percent a year. *)
Definition familyOfFive : FinancialData :=
  mkFinancialData
    88 90 3 0 None None
    110000 90000 mid mid 0 (Some 2.0) 150000 2500 4.5
    50000 20000 14000 0 7056 3000
    rent 1800 3.5 2.0 6000 2500 400 6000 25000 "Zürich" comfortable.

(** One earner of 100000 a year whose salary is expected to change by
    -300 percent a year; every amount of money is non-negative. *)
Definition collapsingSalary : FinancialData :=
  mkFinancialData
    88 95 0 0 None None
    100000 0 mid mid 0 (Some (-300)) 0 0 0
    0 0 0 0 0 0
    rent 0 3.5 0 0 0 0 0 0 "" comfortable.

(** A couple in its last working year that expects its only child next
    year, at a daycare cost of 2500 a month. *)
Definition expectingOne : FinancialData :=
  mkFinancialData
    89 90 0 1 (Some 1%Z) None
    110000 90000 mid mid 0 (Some 2.0) 150000 2500 4.5
    50000 20000 14000 0 7056 3000
    rent 1800 3.5 2.0 6000 2500 400 6000 25000 "Zug" comfortable.

(** [initialData] at age 90, the last simulated age, already retired. *)
Definition lastYear : FinancialData :=
  mkFinancialData
    90 65 0 2 (Some 1%Z) (Some 2%Z)
    110000 90000 mid mid 0 (Some 2.0) 150000 2500 4.5
    50000 20000 14000 0 7056 3000
    rent 1800 3.5 2.0 6000 2500 400 6000 25000 "Zürich" comfortable.

(** ** The objects of a run

    [calculateProjections] receives a reference to the caller's profile
    object, and [computeChildrenSchedule] hands it a new array, which the
    inner loop of every year updates in place.  The store holds the
    profile objects and the arrays allocated so far.  The functions of
    this part read the profile through its reference where the source
    reads [data.field], read and assign the elements of the array through
    its reference where the source has [childrenAges[i]], write where the
    source assigns to a field, and return the store they leave behind.
    The variables declared with [let] are no objects and stay in
    [Locals]; there the field [childrenAges] repeats what the array
    holds.  [points] and [notes] are arrays that the run creates and
    appends to and that nothing but its result refers to; they are kept
    as values. *)

Module Store.
Definition Ref := nat.

Inductive Object :=
| Profile (d : FinancialData)
| Numbers (a : list Z).

Definition t := list Object.

Definition get (s : t) (r : Ref) : option Object := nth_error s r.

(** The profile behind [r]. *)
Definition read (s : t) (r : Ref) : option FinancialData :=
  match get s r with
  | Some (Profile d) => Some d
  | _ => None
  end.

(** The array behind [r]. *)
Definition numbers (s : t) (r : Ref) : option (list Z) :=
  match get s r with
  | Some (Numbers a) => Some a
  | _ => None
  end.

(** A new object, at the next free reference. *)
Definition alloc (s : t) (o : Object) : Ref * t := (List.length s, s ++ [o]).

(** The list with position [i] overwritten. *)
Fixpoint put {A : Type} (l : list A) (i : nat) (x : A) : list A :=
  match l, i with
  | [], _ => []
  | _ :: rest, O => x :: rest
  | y :: rest, S i' => y :: put rest i' x
  end.

(** Assignment to a field of the profile behind [r], which becomes [d]. *)
Definition write (s : t) (r : Ref) (d : FinancialData) : t := put s r (Profile d).

(** [a.length] *)
Definition arrayLength (s : t) (r : Ref) : option nat :=
  option_map (@List.length Z) (numbers s r).

(** [a[i]], for [i] below the length. *)
Definition getIndex (s : t) (r : Ref) (i : nat) : option Z :=
  match numbers s r with
  | Some a => nth_error a i
  | None => None
  end.

(** [a[i] = v], for [i] below the length (the only use the engine makes
    of it). *)
Definition setIndex (s : t) (r : Ref) (i : nat) (v : Z) : option t :=
  match numbers s r with
  | Some a =>
      if (i <? List.length a)%nat then Some (put s r (Numbers (put a i v)))
      else None
  | None => None
  end.

(** Every object of [s] is still there in [s'], unchanged. *)
Definition extends (s s' : t) : Prop :=
  forall r o, get s r = Some o -> get s' r = Some o.
End Store.

Section OnStore.
Variable variant : Variant.
Variable startYear : Z.

(** [const childrenAges = computeChildrenSchedule(data)]: the schedule is
    built in a new array. *)
Definition computeChildrenScheduleOn (r : Store.Ref) (s : Store.t)
  : option (Store.Ref * Store.t) :=
  match Store.read s r with
  | Some d => Some (Store.alloc s (Store.Numbers (computeChildrenSchedule d)))
  | None => None
  end.

(** The inner loop [for (let i = 0; i < childrenAges.length; i++)] on the
    array behind [a]: it returns [annualChildrenExpenses] and
    [activeChildrenCount], and every slot it visits is assigned. *)
Fixpoint childrenLoopOn (r a : Store.Ref) (fuel i : nat) (expenses : Q) (active : Z)
         (s : Store.t) : option (Q * Z * Store.t) :=
  match fuel with
  | O => Some (expenses, active, s)
  | S fuel' =>
      match Store.arrayLength s a with
      | None => None
      | Some n =>
          if (i <? n)%nat then
            match Store.getIndex s a i, Store.read s r with
            | Some childAge, Some d =>
                if (childAge <? 0)%Z then
                  match Store.setIndex s a i (childAge + 1)%Z with
                  | Some s1 => childrenLoopOn r a fuel' (S i) expenses active s1
                  | None => None
                  end
                else
                  let active' :=
                    if ((0 <=? childAge) && (childAge <? 25))%Z then (active + 1)%Z
                    else active in
                  let expenses' :=
                    if (childAge <? 5)%Z then expenses + monthlyDaycareCost d * 12
                    else if ((5 <=? childAge) && (childAge <? 19))%Z
                         then expenses + monthlySchoolActivityCost d * 12
                    else if ((19 <=? childAge) && (childAge <? 25))%Z
                         then expenses + universityCost variant d
                    else expenses in
                  match Store.setIndex s a i (childAge + 1)%Z with
                  | Some s1 => childrenLoopOn r a fuel' (S i) expenses' active' s1
                  | None => None
                  end
            | _, _ => None
            end
          else Some (expenses, active, s)
      end
  end.

(** One iteration of the loop over [age]: the inner loop runs on the
    array, the rest of the iteration reads the profile. *)
Definition bodyOn (scenario : ScenarioType) (r a : Store.Ref) (age : Z) (st : Locals)
           (s : Store.t) : option (Locals * Store.t) :=
  match Store.arrayLength s a with
  | None => None
  | Some n =>
      match childrenLoopOn r a n 0 0 0 s with
      | Some (expenses, active, s1) =>
          match Store.read s1 r, Store.numbers s1 a with
          | Some d, Some ages =>
              Some (yearStep variant startYear d scenario age
                             (mkChildrenPass ages expenses active) st,
                    s1)
          | _, _ => None
          end
      | None => None
      end
  end.

(** The loop of [calculateProjections]. *)
Fixpoint forLoopOn (scenario : ScenarioType) (r a : Store.Ref) (fuel : nat) (age : Z)
         (st : Locals) (s : Store.t) : option (Locals * Store.t) :=
  match fuel with
  | O => Some (st, s)
  | S fuel' =>
      if (age <=? DEFAULT_MAX_AGE)%Z then
        match bodyOn scenario r a age st s with
        | Some (st', s') => forLoopOn scenario r a fuel' (age + 1)%Z st' s'
        | None => None
        end
      else Some (st, s)
  end.

Definition calculateProjectionsOn (r : Store.Ref) (scenario : ScenarioType) (s : Store.t)
  : option (ScenarioResult.t * Store.t) :=
  match Store.read s r with
  | None => None
  | Some d =>
      match computeChildrenScheduleOn r s with
      | Some (a, s1) =>
          match forLoopOn scenario r a (horizon d) (currentAge d) (initialLocals d) s1 with
          | Some (st, s') => Some (resultOf variant scenario st, s')
          | None => None
          end
      | None => None
      end
  end.

(** [JSON.parse(JSON.stringify(d))] allocates the copy. *)
Definition cloneOn (r : Store.Ref) (s : Store.t) : option (Store.Ref * Store.t) :=
  match Store.read s r with
  | Some d => Some (Store.alloc s (Store.Profile (clone d)))
  | None => None
  end.

(** One array element of [runAllScenarios]: a run on a fresh clone. *)
Definition runOnClone (r : Store.Ref) (scenario : ScenarioType) (s : Store.t)
  : option (ScenarioResult.t * Store.t) :=
  match cloneOn r s with
  | Some (c, s1) => calculateProjectionsOn c scenario s1
  | None => None
  end.

Definition runAllScenariosOn (r : Store.Ref) (s : Store.t)
  : option (list ScenarioResult.t * Store.t) :=
  match runOnClone r pessimistic s with
  | Some (r1, s1) =>
      match runOnClone r neutral s1 with
      | Some (r2, s2) =>
          match runOnClone r optimistic s2 with
          | Some (r3, s3) => Some ([r1; r2; r3], s3)
          | None => None
          end
      | None => None
      end
  | None => None
  end.

(** Runs of the given scenarios one after the other on the same object,
    without cloning. *)
Fixpoint runSequenceOn (r : Store.Ref) (scenarios : list ScenarioType) (s : Store.t)
  : option (list ScenarioResult.t * Store.t) :=
  match scenarios with
  | [] => Some ([], s)
  | scenario :: rest =>
      match calculateProjectionsOn r scenario s with
      | Some (res, s1) =>
          match runSequenceOn r rest s1 with
          | Some (ress, s2) => Some (res :: ress, s2)
          | None => None
          end
      | None => None
      end
  end.

(** The scan of [calculateViableEarlyRetirement]: every candidate age is
    written into a fresh clone. *)
Fixpoint searchLoopOn (r : Store.Ref) (lastAge : Z) (fuel : nat) (testAge : Z) (s : Store.t)
  : option (option Z * Store.t) :=
  match fuel with
  | O => Some (None, s)
  | S fuel' =>
      if (testAge <=? lastAge)%Z then
        match cloneOn r s with
        | Some (c, s1) =>
            match Store.read s1 c with
            | Some testData =>
                let s2 := Store.write s1 c (setRetirementAge testData testAge) in
                match calculateProjectionsOn c neutral s2 with
                | Some (result, s3) =>
                    if accepts variant result then Some (Some testAge, s3)
                    else searchLoopOn r lastAge fuel' (testAge + 1)%Z s3
                | None => None
                end
            | None => None
            end
        | None => None
        end
      else Some (None, s)
  end.

Definition calculateViableEarlyRetirementOn (r : Store.Ref) (s : Store.t)
  : option (option Z * Store.t) :=
  match Store.read s r with
  | Some d =>
      searchLoopOn r (lastTestAge variant d)
                   (Z.to_nat (lastTestAge variant d + 1 - firstTestAge variant))
                   (firstTestAge variant) s
  | None => None
  end.
End OnStore.

(** ** Views of one iteration

    The intermediate values of [body], named so that lemmas can speak about
    them; [body_unfold] below shows that [body] computes exactly these. *)

Section Views.
Variable variant : Variant.
Variable startYear : Z.
Variable data : FinancialData.
Variable scenario : ScenarioType.

(** The inner loop of this year. *)
Definition yearPass (st : Locals) : ChildrenPass :=
  childrenLoop variant data (childrenAges st) 0 0.

(** Whether the relocation block is entered this year. *)
Definition moves (st : Locals) : bool :=
  relocates data st (activeChildrenCount (yearPass st)).

(** The household outgrows its rooms this year:
    [(2 + activeChildrenCount) > (data.currentRooms + 0.5)]. *)
Definition outgrows (st : Locals) : bool :=
  Qltb (currentRooms data + 0.5) (inject_Z (2 + activeChildrenCount (yearPass st))).

(** [currentRent] after the yearly increase and the relocation block. *)
Definition rentCharged (st : Locals) : Q :=
  if moves st then inflatedRent data scenario st * 1.30
  else inflatedRent data scenario st.

Definition inflationFactor (age : Z) : Q :=
  Math.pow (1 + baseInflationPct data scenario / 100) (age - currentAge data).

Definition yearExpenses (age : Z) (st : Locals) : Q :=
  rentCharged st * 12
  + monthlyLivingCost data * 12 * inflationFactor age * expenseFactor scenario
  + annualChildrenExpenses (yearPass st) * expenseFactor scenario
  + yearlyTravelBudget data * inflationFactor age * expenseFactor scenario.

(** The locals when the income branch is reached. *)
Definition afterHousing (st : Locals) : Locals :=
  mkLocals
    (grossSalary1 st) (grossSalary2 st) (grossBonus st)
    (pillar2Wealth st) (pillar3Wealth st) (cashBuffer st) (investedWealth st)
    (ahvAnnualPensionSnapshot st) (lppAnnualPensionSnapshot st)
    (pillar3AnnualDrawdownSnapshot st) (retirementSnapshotTaken st)
    (agedChildren (yearPass st)) (points st) (maxWealth st) (savingsDepletedAge st)
    (rentCharged st) (if moves st then true else hasMovedHouse st).

(** The income branch taken this year and what it leaves. *)
Definition yearPhase (age : Z) (st : Locals) : Locals * YearVars :=
  if negb (retirementAge data <=? age)%Z then
    workingPhase variant data scenario age (yearExpenses age st)
                 (if moves st then [noteMoved] else []) (afterHousing st)
  else
    retirementPhase variant data scenario (inflationFactor age) (yearExpenses age st)
                    (if moves st then [noteMoved] else []) (afterHousing st).

(** [totalWealth] of the year. *)
Definition yearWealth (age : Z) (st : Locals) : Q :=
  let st2 := fst (yearPhase age st) in
  cashBuffer st2 + investedWealth st2 + pillar2Wealth st2 + pillar3Wealth st2.

(** The notes of the year before [notes.length > 0 ? notes : undefined]. *)
Definition yearNotes (age : Z) (st : Locals) : list string :=
  if depletes variant (yearWealth age st) (fst (yearPhase age st))
  then notes (snd (yearPhase age st)) ++ [noteDepleted]
  else notes (snd (yearPhase age st)).

(** The object pushed onto [points] this year. *)
Definition yearPoint (age : Z) (st : Locals) : ProjectionPoint.t :=
  let isRetired := (retirementAge data <=? age)%Z in
  let st2 := fst (yearPhase age st) in
  let yv := snd (yearPhase age st) in
  ProjectionPoint.mk
    age (startYear + (age - currentAge data))%Z
    (totalGrossIncome yv) (totalIncomeNet yv)
    (if isRetired then 0 else grossSalary1 st2 * taxFactor data)
    (if isRetired then 0 else grossSalary2 st2 * taxFactor data)
    (if isRetired then 0 else grossBonus st2 * 0.65)
    (pensionAHV yv) (pensionLPP yv) (pension3a yv)
    (pensionAHV yv + pensionLPP yv + pension3a yv)
    (activeChildrenCount (yearPass st))
    (rentCharged st * 12)
    (monthlyLivingCost data * 12 * inflationFactor age * expenseFactor scenario)
    (annualChildrenExpenses (yearPass st) * expenseFactor scenario)
    (yearlyTravelBudget data * inflationFactor age * expenseFactor scenario)
    (yearExpenses age st) 0 (annualSavingsCapacity yv)
    (cashBuffer st2) (investedWealth st2) (pillar2Wealth st2) (pillar3Wealth st2)
    (pillar2Wealth st2 + pillar3Wealth st2)
    0 (yearWealth age st) (Qltb (annualSavingsCapacity yv) 0)
    (match yearNotes age st with [] => None | _ => Some (yearNotes age st) end).

(** The age simulated in iteration [k] (counted from 0). *)
Definition ageAt (k : nat) : Z := (currentAge data + Z.of_nat k)%Z.

(** The iteration that simulates the first age that is at least the
    retirement age; it lies beyond the horizon when that age is above 90. *)
Definition firstRetiredIndex : nat :=
  Z.to_nat (Z.max 0 (retirementAge data - currentAge data)).
End Views.

(** ** Profiles *)

(** The canton of the profile finds a number in the tax table (it is not
    named like a property inherited from [Object.prototype]). *)
Definition taxFactorIsNumber (d : FinancialData) : bool :=
  match getTaxFactor (canton d) with Number _ => true | Inherited => false end.

(** The amounts of money of a profile are non-negative. *)
Definition nonnegMonetary (d : FinancialData) : Prop :=
  0 <= annualGrossSalary1 d /\ 0 <= annualGrossSalary2 d /\ 0 <= annualBonus d
  /\ 0 <= currentSavings d /\ 0 <= monthlyContribution d
  /\ 0 <= pillar2Balance1 d /\ 0 <= pillar2Balance2 d
  /\ 0 <= pillar3Balance1 d /\ 0 <= pillar3Balance2 d
  /\ 0 <= pillar3AnnualContribution1 d /\ 0 <= pillar3AnnualContribution2 d
  /\ 0 <= currentHousingCost d /\ 0 <= monthlyLivingCost d
  /\ 0 <= monthlyDaycareCost d /\ 0 <= monthlySchoolActivityCost d
  /\ 0 <= yearlyTravelBudget d /\ 0 <= universitySupport d.

(** The salaries and the five balances held in the locals are
    non-negative. *)
Definition nonnegLocals (st : Locals) : Prop :=
  0 <= grossSalary1 st /\ 0 <= grossSalary2 st /\ 0 <= grossBonus st
  /\ 0 <= pillar2Wealth st /\ 0 <= pillar3Wealth st
  /\ 0 <= cashBuffer st /\ 0 <= investedWealth st.

(** Two states of the loop agree on everything the investment return
    does not reach. *)
Definition sameEnvironment (st1 st2 : Locals) : Prop :=
  grossSalary1 st1 = grossSalary1 st2 /\ grossSalary2 st1 = grossSalary2 st2
  /\ grossBonus st1 = grossBonus st2 /\ pillar2Wealth st1 = pillar2Wealth st2
  /\ lppAnnualPensionSnapshot st1 = lppAnnualPensionSnapshot st2
  /\ retirementSnapshotTaken st1 = retirementSnapshotTaken st2
  /\ childrenAges st1 = childrenAges st2
  /\ currentRent st1 = currentRent st2 /\ hasMovedHouse st1 = hasMovedHouse st2.

(** The cash buffer, the invested wealth and the pillar-3 wealth of the
    first state are non-negative and at most those of the second. *)
Definition bucketsOrdered (st1 st2 : Locals) : Prop :=
  0 <= cashBuffer st1 <= cashBuffer st2
  /\ 0 <= investedWealth st1 <= investedWealth st2
  /\ 0 <= pillar3Wealth st1 <= pillar3Wealth st2.

(** After the snapshot: the yearly drawdowns are ordered, and so are the
    numbers of drawdowns the pillar-3 balances still cover. *)
Definition drawdownOrdered (st1 st2 : Locals) : Prop :=
  0 <= pillar3AnnualDrawdownSnapshot st1 <= pillar3AnnualDrawdownSnapshot st2
  /\ exists u1 u2,
       0 <= u1 <= u2
       /\ pillar3Wealth st1 == pillar3AnnualDrawdownSnapshot st1 * u1
       /\ pillar3Wealth st2 == pillar3AnnualDrawdownSnapshot st2 * u2.

(** The relation kept between a run and the run with a higher investment
    return. *)
Definition returnOrdered (st1 st2 : Locals) : Prop :=
  sameEnvironment st1 st2 /\ bucketsOrdered st1 st2
  /\ (retirementSnapshotTaken st1 = true -> drawdownOrdered st1 st2).

(** The profile with another baseline investment return. *)
Definition setInvestmentReturn (d : FinancialData) (r : Q) : FinancialData :=
  mkFinancialData
    (currentAge d) (retirementAge d) (currentChildren d) (futureChildren d)
    (firstChildBirthYearOffset d) (childSpacingYears d)
    (annualGrossSalary1 d) (annualGrossSalary2 d) (careerStage1 d) (careerStage2 d)
    (annualBonus d) (expectedSalaryIncrease d) (currentSavings d)
    (monthlyContribution d) r
    (pillar2Balance1 d) (pillar2Balance2 d) (pillar3Balance1 d) (pillar3Balance2 d)
    (pillar3AnnualContribution1 d) (pillar3AnnualContribution2 d)
    (housingStatus d) (currentHousingCost d) (currentRooms d) (housingCostIncrease d)
    (monthlyLivingCost d) (monthlyDaycareCost d) (monthlySchoolActivityCost d)
    (yearlyTravelBudget d) (universitySupport d) (canton d) (luxuryLevel d).

(** The four wealth buckets of a yearly snapshot are non-negative. *)
Definition bucketsNonneg (pt : ProjectionPoint.t) : Prop :=
  0 <= ProjectionPoint.cashSavings pt /\ 0 <= ProjectionPoint.investedAssets pt
  /\ 0 <= ProjectionPoint.pillar2Wealth pt /\ 0 <= ProjectionPoint.pillar3Wealth pt.

(** The depletion test of the loop, read off the snapshot of the year:
    a negative total wealth, and in [Part000] also free assets and pillar-3
    wealth of at most 100 each. *)
Definition depletedAt (variant : Variant) (pt : ProjectionPoint.t) : bool :=
  Qltb (ProjectionPoint.totalWealth pt) 0
  && match variant with
     | Services => true
     | Part000 =>
         Qleb (ProjectionPoint.cashSavings pt + ProjectionPoint.investedAssets pt) 100
         && Qleb (ProjectionPoint.pillar3Wealth pt) 100
     end.

(** A note occurs among the notes of a snapshot. *)
Definition hasNote (note : string) (pt : ProjectionPoint.t) : Prop :=
  match ProjectionPoint.notes pt with
  | Some ns => In note ns
  | None => False
  end.

(** * Properties *)

(** ** Comparisons and [Math] *)

Lemma Qleb_true (a b : Q) : Qleb a b = true <-> a <= b.
Proof. unfold Qleb. apply Qle_bool_iff. Qed.

Lemma Qleb_false (a b : Q) : Qleb a b = false <-> b < a.
Proof.
  unfold Qleb. split; intro H.
  - apply Qnot_le_lt. intro L. apply Qle_bool_iff in L. congruence.
  - destruct (Qle_bool a b) eqn:E; [|reflexivity].
    apply Qle_bool_iff in E. lra.
Qed.

Lemma Qltb_true (a b : Q) : Qltb a b = true <-> a < b.
Proof.
  unfold Qltb. rewrite negb_true_iff. apply (Qleb_false b a).
Qed.

Lemma Qltb_false (a b : Q) : Qltb a b = false <-> b <= a.
Proof.
  unfold Qltb. rewrite negb_false_iff. apply (Qleb_true b a).
Qed.

(** Splits on the first comparison of rationals in the goal. *)
Ltac qcase :=
  match goal with
  | |- context [Qleb ?a ?b] =>
      let C := fresh "C" in
      destruct (Qleb a b) eqn:C;
      [apply Qleb_true in C | apply Qleb_false in C]
  | |- context [Qltb ?a ?b] =>
      let C := fresh "C" in
      destruct (Qltb a b) eqn:C;
      [apply Qltb_true in C | apply Qltb_false in C]
  end.

Ltac qcases := repeat qcase.

Lemma percent (x : Q) : x / 100 == x * 0.01.
Proof. field. Qed.

(** Names every [x / 100] of the goal and the hypotheses, keeping its
    value, so that linear arithmetic can use it. *)
Ltac pct :=
  repeat match goal with
  | |- context [Qdiv ?x 100] =>
      let p := fresh "p" in
      pose proof (percent x); set (p := Qdiv x 100) in *; clearbody p
  | H : context [Qdiv ?x 100] |- _ =>
      let p := fresh "p" in
      pose proof (percent x); set (p := Qdiv x 100) in *; clearbody p
  end.

Ltac qlin := pct; lra.

Lemma max_l (a b : Q) : a <= Math.max a b.
Proof. unfold Math.max. qcase; lra. Qed.

Lemma max_r (a b : Q) : b <= Math.max a b.
Proof. unfold Math.max. qcase; lra. Qed.

Lemma max_mono (a b c d : Q) : a <= c -> b <= d -> Math.max a b <= Math.max c d.
Proof. intros. unfold Math.max. qcases; lra. Qed.

Lemma mul_mono (a b c d : Q) : 0 <= a -> a <= b -> 0 <= c -> c <= d -> a * c <= b * d.
Proof.
  intros. apply Qmult_le_compat_nonneg; split; assumption.
Qed.

(** ** One iteration *)

Section BodyFacts.
Variable variant : Variant.
Variable startYear : Z.
Variable data : FinancialData.
Variable scenario : ScenarioType.

Local Abbreviation body' := (body variant startYear data scenario).
Local Abbreviation phase' := (yearPhase variant data scenario).
Local Abbreviation point' := (yearPoint variant startYear data scenario).
Local Abbreviation wealth' := (yearWealth variant data scenario).
Local Abbreviation after' := (localsAfter variant startYear data scenario).

Lemma body_unfold (age : Z) (st : Locals) :
  body' age st =
  let st2 := fst (phase' age st) in
  mkLocals
    (grossSalary1 st2) (grossSalary2 st2) (grossBonus st2)
    (pillar2Wealth st2) (pillar3Wealth st2) (cashBuffer st2) (investedWealth st2)
    (ahvAnnualPensionSnapshot st2) (lppAnnualPensionSnapshot st2)
    (pillar3AnnualDrawdownSnapshot st2) (retirementSnapshotTaken st2)
    (childrenAges st2) (points st2 ++ [point' age st])
    (if Qltb (maxWealth st2) (wealth' age st) then wealth' age st else maxWealth st2)
    (if depletes variant (wealth' age st) st2 then Some age else savingsDepletedAge st2)
    (currentRent st2) (hasMovedHouse st2).
Proof. reflexivity. Qed.

(** What the income branch leaves untouched. *)
Lemma phase_frame (age : Z) (st : Locals) :
  let st2 := fst (phase' age st) in
  points st2 = points st
  /\ childrenAges st2 = agedChildren (yearPass variant data st)
  /\ currentRent st2 = rentCharged variant data scenario st
  /\ hasMovedHouse st2 = (if moves variant data st then true else hasMovedHouse st)
  /\ maxWealth st2 = maxWealth st
  /\ savingsDepletedAge st2 = savingsDepletedAge st.
Proof.
  unfold yearPhase. destruct (negb (retirementAge data <=? age)%Z); cbn; repeat split.
Qed.

Lemma body_points (age : Z) (st : Locals) :
  points (body' age st) = points st ++ [point' age st].
Proof.
  rewrite body_unfold. cbn [points].
  destruct (phase_frame age st) as [-> _]. reflexivity.
Qed.

Lemma body_childrenAges (age : Z) (st : Locals) :
  childrenAges (body' age st) = agedChildren (yearPass variant data st).
Proof. rewrite body_unfold. cbn [childrenAges]. apply phase_frame. Qed.

Lemma body_currentRent (age : Z) (st : Locals) :
  currentRent (body' age st) = rentCharged variant data scenario st.
Proof. rewrite body_unfold. cbn [currentRent]. apply phase_frame. Qed.

Lemma body_hasMovedHouse (age : Z) (st : Locals) :
  hasMovedHouse (body' age st) = (if moves variant data st then true else hasMovedHouse st).
Proof. rewrite body_unfold. cbn [hasMovedHouse]. apply phase_frame. Qed.

(** ** The loop *)

Lemma forLoop_snoc (k : nat) (age : Z) (st : Locals) :
  (age + Z.of_nat k <= DEFAULT_MAX_AGE)%Z ->
  forLoop variant startYear data scenario (S k) age st
  = body' (age + Z.of_nat k)%Z (forLoop variant startYear data scenario k age st).
Proof.
  revert age st. induction k as [|k IH]; intros age st Hle.
  - cbn [forLoop]. replace (age + Z.of_nat 0)%Z with age in * by lia.
    destruct (age <=? DEFAULT_MAX_AGE)%Z eqn:E; [reflexivity | lia].
  - change (forLoop variant startYear data scenario (S (S k)) age st)
      with (if (age <=? DEFAULT_MAX_AGE)%Z
            then forLoop variant startYear data scenario (S k) (age + 1)%Z (body' age st)
            else st).
    change (forLoop variant startYear data scenario (S k) age st)
      with (if (age <=? DEFAULT_MAX_AGE)%Z
            then forLoop variant startYear data scenario k (age + 1)%Z (body' age st)
            else st).
    destruct (age <=? DEFAULT_MAX_AGE)%Z eqn:E; [|lia].
    rewrite IH by lia. f_equal. lia.
Qed.

(** The fuel of [calculateProjections] is exactly what the loop uses:
    more fuel changes nothing, the loop has left through its test. *)
Lemma forLoop_fuel (extra : nat) :
  forLoop variant startYear data scenario (horizon data + extra) (currentAge data)
          (initialLocals data)
  = finalLocals variant startYear data scenario.
Proof.
  unfold finalLocals, localsAfter, horizon.
  generalize (initialLocals data) as st.
  generalize (currentAge data) as age.
  intros age.
  remember (Z.to_nat (DEFAULT_MAX_AGE + 1 - age)) as n eqn:Hn.
  revert age Hn. induction n as [|n IH]; intros age Hn st.
  - destruct extra as [|extra]; [reflexivity|]. cbn [Nat.add forLoop].
    destruct (age <=? DEFAULT_MAX_AGE)%Z eqn:E; [unfold DEFAULT_MAX_AGE in *; lia | reflexivity].
  - cbn [Nat.add forLoop].
    destruct (age <=? DEFAULT_MAX_AGE)%Z eqn:E; [|reflexivity].
    apply IH. unfold DEFAULT_MAX_AGE in *. lia.
Qed.

Lemma localsAfter_S (k : nat) :
  (k < horizon data)%nat ->
  after' (S k) = body' (ageAt data k) (after' k).
Proof.
  intro Hk. unfold localsAfter, ageAt. apply forLoop_snoc.
  unfold horizon, DEFAULT_MAX_AGE in *. lia.
Qed.

Lemma localsAfter_points (k : nat) :
  (k <= horizon data)%nat ->
  points (after' k)
  = map (fun i => point' (ageAt data i) (after' i)) (seq 0 k).
Proof.
  induction k as [|k IH]; intro Hk.
  - reflexivity.
  - rewrite localsAfter_S by lia. rewrite body_points, IH by lia.
    rewrite seq_S, map_app. reflexivity.
Qed.

Lemma data_points :
  ScenarioResult.data (calculateProjections variant startYear data scenario)
  = map (fun i => point' (ageAt data i) (after' i)) (seq 0 (horizon data)).
Proof.
  unfold calculateProjections, resultOf, finalLocals. cbn [ScenarioResult.data].
  apply localsAfter_points. lia.
Qed.

Lemma data_nth (k : nat) :
  (k < horizon data)%nat ->
  nth_error (ScenarioResult.data (calculateProjections variant startYear data scenario)) k
  = Some (point' (ageAt data k) (after' k)).
Proof.
  intro Hk. rewrite data_points.
  rewrite nth_error_map, nth_error_seq.
  destruct (Nat.ltb_spec k (horizon data)); [reflexivity | lia].
Qed.

Lemma data_In (pt : ProjectionPoint.t) :
  In pt (ScenarioResult.data (calculateProjections variant startYear data scenario))
  <-> exists k, (k < horizon data)%nat /\ pt = point' (ageAt data k) (after' k).
Proof.
  rewrite data_points, in_map_iff. split.
  - intros (k & <- & Hin). apply in_seq in Hin. exists k. split; [lia | reflexivity].
  - intros (k & Hk & ->). exists k. split; [reflexivity | apply in_seq; lia].
Qed.

Lemma data_length :
  List.length (ScenarioResult.data (calculateProjections variant startYear data scenario))
  = horizon data.
Proof. rewrite data_points, length_map, length_seq. reflexivity. Qed.

(** The final wealth is the total wealth of the last simulated year. *)
Lemma finalWealth_last (n : nat) :
  horizon data = S n ->
  ScenarioResult.finalWealth (calculateProjections variant startYear data scenario)
  = wealth' (ageAt data n) (after' n).
Proof.
  intro Hn.
  change (ScenarioResult.finalWealth (calculateProjections variant startYear data scenario))
    with (lastTotalWealth
            (ScenarioResult.data (calculateProjections variant startYear data scenario))).
  unfold lastTotalWealth. rewrite data_length, Hn.
  replace (S n - 1)%nat with n by lia.
  rewrite data_nth by lia. reflexivity.
Qed.

Lemma finalWealth_empty :
  horizon data = O ->
  ScenarioResult.finalWealth (calculateProjections variant startYear data scenario) = 0.
Proof.
  intro Hn.
  change (ScenarioResult.finalWealth (calculateProjections variant startYear data scenario))
    with (lastTotalWealth
            (ScenarioResult.data (calculateProjections variant startYear data scenario))).
  unfold lastTotalWealth.
  destruct (ScenarioResult.data (calculateProjections variant startYear data scenario)) eqn:E.
  - reflexivity.
  - pose proof data_length as L. rewrite E, Hn in L. discriminate L.
Qed.

End BodyFacts.

(** ** Occupational-pension capital after retirement *)

Lemma retired_pillar2 (variant : Variant) (data : FinancialData) (scenario : ScenarioType)
      (age : Z) (st : Locals) :
  (retirementAge data <= age)%Z ->
  pillar2Wealth (fst (yearPhase variant data scenario age st)) = 0.
Proof.
  intro H. unfold yearPhase.
  destruct (retirementAge data <=? age)%Z eqn:E; [reflexivity | lia].
Qed.

(** C4.  In every yearly snapshot of every run whose age is at least the
    retirement age, the occupational-pension (pillar-2) bucket is exactly 0. *)
Theorem pillar2_zero_once_retired
        (variant : Variant) (startYear : Z) (data : FinancialData)
        (scenario : ScenarioType) (pt : ProjectionPoint.t) :
  In pt (ScenarioResult.data (calculateProjections variant startYear data scenario)) ->
  (retirementAge data <= ProjectionPoint.age pt)%Z ->
  ProjectionPoint.pillar2Wealth pt = 0.
Proof.
  intros Hin Hage. apply data_In in Hin. destruct Hin as (k & _ & ->).
  cbn [yearPoint ProjectionPoint.pillar2Wealth ProjectionPoint.age] in *.
  apply retired_pillar2. exact Hage.
Qed.

Lemma pillar2_zero_once_retired_witness :
  ProjectionPoint.pillar2Wealth
    (yearPoint Services 2026 lateCareer neutral 90
               (localsAfter Services 2026 lateCareer neutral 1)) = 0.
Proof.
  apply (pillar2_zero_once_retired Services 2026 lateCareer neutral).
  - vm_compute. right. left. reflexivity.
  - vm_compute. discriminate.
Defined.

(** ** Child slots *)

Lemma childrenLoop_negative_slot
      (variant : Variant) (data : FinancialData)
      (childAge : Z) (rest : list Z) (expenses : Q) (active : Z) :
  (childAge < 0)%Z ->
  childrenLoop variant data (childAge :: rest) expenses active
  = mkChildrenPass
      ((childAge + 1)%Z :: agedChildren (childrenLoop variant data rest expenses active))
      (annualChildrenExpenses (childrenLoop variant data rest expenses active))
      (activeChildrenCount (childrenLoop variant data rest expenses active)).
Proof.
  intro H. cbn [childrenLoop].
  destruct (childAge <? 0)%Z eqn:E; [reflexivity | lia].
Qed.

(** C9.  With a monthly daycare cost of 2500 and exactly one child, starting
    at relative age -1, the neutral run reports children expenses of 0 in
    simulation year 0 and of 30000 in year 1; and in general a slot with a
    negative age adds nothing to the expenses or to the active count of its
    year. *)
Theorem unborn_child_costs_nothing
        (variant : Variant) (startYear : Z) (data : FinancialData) :
  monthlyDaycareCost data == 2500 ->
  currentChildren data = 0%Z ->
  futureChildren data = 1%Z ->
  orElse (firstChildBirthYearOffset data) 1%Z = 1%Z ->
  (currentAge data <= 89)%Z ->
  (exists p0 p1,
      nth_error (ScenarioResult.data (calculateProjections variant startYear data neutral)) 0
      = Some p0
      /\ nth_error (ScenarioResult.data (calculateProjections variant startYear data neutral)) 1
         = Some p1
      /\ ProjectionPoint.childrenExpenses p0 == 0
      /\ ProjectionPoint.childrenExpenses p1 == 30000)
  /\ (forall childAge rest expenses active,
         (childAge < 0)%Z ->
         annualChildrenExpenses (childrenLoop variant data (childAge :: rest) expenses active)
         = annualChildrenExpenses (childrenLoop variant data rest expenses active)
         /\ activeChildrenCount (childrenLoop variant data (childAge :: rest) expenses active)
            = activeChildrenCount (childrenLoop variant data rest expenses active)).
Proof.
  intros Hday Hcur Hfut Hoff Hage. split.
  - assert (Hh : (1 < horizon data)%nat)
      by (unfold horizon, DEFAULT_MAX_AGE; lia).
    assert (Hsched : computeChildrenSchedule data = [(-1)%Z]).
    { unfold computeChildrenSchedule. rewrite Hcur, Hfut, Hoff. reflexivity. }
    eexists. eexists.
    split; [apply data_nth; lia|].
    split; [apply data_nth; lia|].
    cbn [yearPoint ProjectionPoint.childrenExpenses].
    rewrite localsAfter_S by lia.
    unfold yearPass. rewrite body_childrenAges. unfold yearPass.
    change (childrenAges (localsAfter variant startYear data neutral 0))
      with (computeChildrenSchedule data).
    rewrite Hsched. cbn. split; lra.
  - intros childAge rest expenses active H.
    rewrite childrenLoop_negative_slot by exact H. split; reflexivity.
Qed.

Lemma unborn_child_costs_nothing_witness :
  exists p0 p1,
    nth_error (ScenarioResult.data (calculateProjections Services 2026 expectingOne neutral)) 0
    = Some p0
    /\ nth_error (ScenarioResult.data (calculateProjections Services 2026 expectingOne neutral)) 1
       = Some p1
    /\ ProjectionPoint.childrenExpenses p0 == 0
    /\ ProjectionPoint.childrenExpenses p1 == 30000.
Proof.
  apply (unborn_child_costs_nothing Services 2026 expectingOne).
  - reflexivity.
  - reflexivity.
  - reflexivity.
  - reflexivity.
  - vm_compute. discriminate.
Defined.

(** ** The early-retirement scan *)

Lemma searchLoop_spec (variant : Variant) (startYear : Z) (data : FinancialData)
      (fuel : nat) (testAge : Z) :
  fuel = Z.to_nat (lastTestAge variant data + 1 - testAge) ->
  match searchLoop variant startYear data fuel testAge with
  | None =>
      forall a, (testAge <= a <= lastTestAge variant data)%Z ->
                accepts variant (testRun variant startYear data a) = false
  | Some found =>
      (testAge <= found <= lastTestAge variant data)%Z
      /\ accepts variant (testRun variant startYear data found) = true
      /\ forall a, (testAge <= a < found)%Z ->
                   accepts variant (testRun variant startYear data a) = false
  end.
Proof.
  revert testAge. induction fuel as [|fuel IH]; intros testAge Hfuel.
  - cbn. intros a Ha. lia.
  - cbn [searchLoop].
    destruct (testAge <=? lastTestAge variant data)%Z eqn:E; [|lia].
    destruct (accepts variant (testRun variant startYear data testAge)) eqn:A.
    + split; [lia|]. split; [exact A|]. intros a Ha. lia.
    + specialize (IH (testAge + 1)%Z ltac:(lia)).
      destruct (searchLoop variant startYear data fuel (testAge + 1)%Z) as [found|].
      * destruct IH as (Hr & Hacc & Hmin). split; [lia|]. split; [exact Hacc|].
        intros a Ha. destruct (Z.eq_dec a testAge) as [->|Hne]; [exact A|].
        apply Hmin. lia.
      * intros a Ha. destruct (Z.eq_dec a testAge) as [->|Hne]; [exact A|].
        apply IH. lia.
Qed.

(** C8.  [calculateViableEarlyRetirement] returns null exactly when no
    candidate age of its range passes its test, and otherwise the lowest
    candidate age that passes it (never the last age by default). *)
Theorem earliest_viable_age (variant : Variant) (startYear : Z) (data : FinancialData) :
  (calculateViableEarlyRetirement variant startYear data = None
   <-> forall a, (firstTestAge variant <= a <= lastTestAge variant data)%Z ->
                 accepts variant (testRun variant startYear data a) = false)
  /\ (forall found,
         calculateViableEarlyRetirement variant startYear data = Some found
         <-> ((firstTestAge variant <= found <= lastTestAge variant data)%Z
              /\ accepts variant (testRun variant startYear data found) = true
              /\ forall a, (firstTestAge variant <= a < found)%Z ->
                           accepts variant (testRun variant startYear data a) = false)).
Proof.
  pose proof (searchLoop_spec variant startYear data _ (firstTestAge variant) eq_refl) as S.
  unfold calculateViableEarlyRetirement.
  destruct (searchLoop variant startYear data
              (Z.to_nat (lastTestAge variant data + 1 - firstTestAge variant))
              (firstTestAge variant)) as [found|].
  - destruct S as (Hr & Hacc & Hmin). split.
    + split; [discriminate|]. intro Hall. rewrite (Hall found Hr) in Hacc. discriminate.
    + intro f. split.
      * intro E. injection E as <-. auto.
      * intros (Hr' & Hacc' & Hmin'). f_equal.
        destruct (Z.lt_trichotomy found f) as [L|[E|G]]; [|exact E|].
        -- rewrite (Hmin' found) in Hacc by lia. discriminate.
        -- rewrite (Hmin f) in Hacc' by lia. discriminate.
  - split.
    + split; [intros _; exact S | reflexivity].
    + intro f. split; [discriminate|].
      intros (Hr' & Hacc' & _). rewrite (S f Hr') in Hacc'. discriminate.
Qed.

(** ** The retirement snapshot *)

Section Snapshot.
Variable variant : Variant.
Variable startYear : Z.
Variable data : FinancialData.
Variable scenario : ScenarioType.

Local Abbreviation after' := (localsAfter variant startYear data scenario).
Local Abbreviation phase' := (yearPhase variant data scenario).
Local Abbreviation result' := (calculateProjections variant startYear data scenario).

Lemma phase_snapshotTaken (age : Z) (st : Locals) :
  retirementSnapshotTaken (fst (phase' age st))
  = if (retirementAge data <=? age)%Z then true else retirementSnapshotTaken st.
Proof.
  unfold yearPhase. destruct (retirementAge data <=? age)%Z; reflexivity.
Qed.

(** The flag is set exactly when an earlier iteration was a retired one. *)
Lemma snapshotTaken_after (k : nat) :
  (k <= horizon data)%nat ->
  (retirementSnapshotTaken (after' k) = true
   <-> (1 <= k)%nat /\ (retirementAge data < ageAt data k)%Z).
Proof.
  induction k as [|k IH]; intro Hk.
  - cbn. split; [discriminate | lia].
  - rewrite localsAfter_S by lia. rewrite body_unfold.
    cbn [retirementSnapshotTaken]. rewrite phase_snapshotTaken.
    specialize (IH ltac:(lia)). unfold ageAt in *.
    destruct (retirementAge data <=? currentAge data + Z.of_nat k)%Z eqn:E.
    + split; [intros _; lia | reflexivity].
    + rewrite IH. lia.
Qed.

Lemma firstRetiredIndex_spec (k : nat) :
  (retirementAge data <= ageAt data k)%Z <-> (firstRetiredIndex data <= k)%nat.
Proof. unfold ageAt, firstRetiredIndex. lia. Qed.

(** What one year does to the three variables of the snapshot: the block
    assigns them when the year is a retired one and the flag is not set,
    and nothing else touches them. *)
Lemma phase_snapshot_fields (age : Z) (st : Locals) :
  if ((retirementAge data <=? age)%Z && negb (retirementSnapshotTaken st))%bool then
    ahvAnnualPensionSnapshot (fst (phase' age st))
    = AHV_COUPLE_MAX_ANNUAL_2025 * inflationFactor data scenario age
    /\ lppAnnualPensionSnapshot (fst (phase' age st))
       = pillar2Wealth st * LPP_CONVERSION_RATE
    /\ pillar3AnnualDrawdownSnapshot (fst (phase' age st))
       = pillar3Wealth st / Math.max 1 (inject_Z (DEFAULT_MAX_AGE - retirementAge data))
  else
    ahvAnnualPensionSnapshot (fst (phase' age st)) = ahvAnnualPensionSnapshot st
    /\ lppAnnualPensionSnapshot (fst (phase' age st)) = lppAnnualPensionSnapshot st
    /\ pillar3AnnualDrawdownSnapshot (fst (phase' age st))
       = pillar3AnnualDrawdownSnapshot st.
Proof.
  unfold yearPhase.
  destruct (retirementAge data <=? age)%Z; cbn [negb andb].
  - destruct (retirementSnapshotTaken st) eqn:T; cbn [negb];
      unfold retirementPhase;
      cbn [fst afterHousing retirementSnapshotTaken ahvAnnualPensionSnapshot
           lppAnnualPensionSnapshot pillar3AnnualDrawdownSnapshot
           pillar2Wealth pillar3Wealth];
      rewrite T; cbn [negb]; repeat split; reflexivity.
  - repeat split; reflexivity.
Qed.

Lemma guard_iff (k : nat) :
  (k < horizon data)%nat ->
  (((retirementAge data <=? ageAt data k)%Z
    && negb (retirementSnapshotTaken (after' k)))%bool = true
   <-> k = firstRetiredIndex data).
Proof.
  intro Hk.
  pose proof (snapshotTaken_after k ltac:(lia)) as F.
  rewrite andb_true_iff, negb_true_iff, Z.leb_le.
  destruct (retirementSnapshotTaken (after' k)); unfold ageAt, firstRetiredIndex in *.
  - destruct F as [F _]. specialize (F eq_refl). split; [intros [_ H]; discriminate | lia].
  - split.
    + intros [H _].
      assert (~ ((1 <= k)%nat /\ (retirementAge data < currentAge data + Z.of_nat k)%Z))
        by (intro C; apply F in C; discriminate).
      lia.
    + intro H. split; [lia | reflexivity].
Qed.

(** Up to and including the state that enters the first retired year the
    flag is unset and the three variables hold their initial 0. *)
Lemma snapshot_before (k : nat) :
  (k <= horizon data)%nat -> (k <= firstRetiredIndex data)%nat ->
  retirementSnapshotTaken (after' k) = false
  /\ ahvAnnualPensionSnapshot (after' k) = 0
  /\ lppAnnualPensionSnapshot (after' k) = 0
  /\ pillar3AnnualDrawdownSnapshot (after' k) = 0.
Proof.
  induction k as [|k IH]; intros Hk Hf.
  - repeat split; reflexivity.
  - destruct (IH ltac:(lia) ltac:(lia)) as (T & A & L & D).
    assert (W : (retirementAge data <=? ageAt data k)%Z = false).
    { apply Z.leb_gt. pose proof (firstRetiredIndex_spec k). lia. }
    rewrite localsAfter_S by lia. rewrite body_unfold.
    cbn [retirementSnapshotTaken ahvAnnualPensionSnapshot lppAnnualPensionSnapshot
         pillar3AnnualDrawdownSnapshot].
    pose proof (phase_snapshot_fields (ageAt data k) (after' k)) as P.
    rewrite W in P. cbn [andb] in P. destruct P as (PA & PL & PD).
    rewrite phase_snapshotTaken, W, PA, PL, PD. auto.
Qed.

(** From the state the first retired year leaves, the flag is set and the
    three variables hold what that year computed. *)
Lemma snapshot_after (k : nat) :
  (firstRetiredIndex data < k)%nat -> (k <= horizon data)%nat ->
  retirementSnapshotTaken (after' k) = true
  /\ ahvAnnualPensionSnapshot (after' k)
     = AHV_COUPLE_MAX_ANNUAL_2025
       * inflationFactor data scenario (ageAt data (firstRetiredIndex data))
  /\ lppAnnualPensionSnapshot (after' k)
     = pillar2Wealth (after' (firstRetiredIndex data)) * LPP_CONVERSION_RATE
  /\ pillar3AnnualDrawdownSnapshot (after' k)
     = pillar3Wealth (after' (firstRetiredIndex data))
       / Math.max 1 (inject_Z (DEFAULT_MAX_AGE - retirementAge data)).
Proof.
  induction k as [|k IH]; intros Hf Hk; [lia|].
  assert (W : (retirementAge data <=? ageAt data k)%Z = true).
  { apply Z.leb_le. apply firstRetiredIndex_spec. lia. }
  rewrite localsAfter_S by lia. rewrite body_unfold.
  cbn [retirementSnapshotTaken ahvAnnualPensionSnapshot lppAnnualPensionSnapshot
       pillar3AnnualDrawdownSnapshot].
  pose proof (phase_snapshot_fields (ageAt data k) (after' k)) as P.
  rewrite phase_snapshotTaken, W. rewrite W in P. cbn [andb] in P.
  destruct (Nat.eq_dec k (firstRetiredIndex data)) as [E|NE].
  - destruct (snapshot_before k ltac:(lia) ltac:(lia)) as (T & _).
    rewrite T in P. cbn [negb] in P. destruct P as (PA & PL & PD).
    rewrite PA, PL, PD, E. auto.
  - destruct (IH ltac:(lia) ltac:(lia)) as (T & A & L & D).
    rewrite T in P. cbn [negb] in P. destruct P as (PA & PL & PD).
    rewrite PA, PL, PD. auto.
Qed.

(** The private drawdown of a retired year: the snapshot's yearly amount,
    capped by the pillar-3 wealth the year starts with. *)
Lemma retired_pension3a (age : Z) (st : Locals) :
  (retirementAge data <= age)%Z ->
  pension3a (snd (phase' age st))
  = match variant with
    | Services =>
        Math.min (pillar3Wealth st) (pillar3AnnualDrawdownSnapshot (fst (phase' age st)))
    | Part000 =>
        if Qltb 0 (pillar3Wealth st) then
          if Qltb (pillar3Wealth st) (pillar3AnnualDrawdownSnapshot (fst (phase' age st)))
          then pillar3Wealth st
          else pillar3AnnualDrawdownSnapshot (fst (phase' age st))
        else 0
    end.
Proof.
  intro H. unfold yearPhase.
  destruct (retirementAge data <=? age)%Z eqn:E; [|lia].
  destruct variant; reflexivity.
Qed.

(** Once taken, the occupational annuity of the snapshot is not assigned
    again. *)
Lemma lppSnapshot_frozen (age : Z) (st : Locals) :
  retirementSnapshotTaken st = true ->
  lppAnnualPensionSnapshot (fst (phase' age st)) = lppAnnualPensionSnapshot st.
Proof.
  intro T. unfold yearPhase.
  destruct (retirementAge data <=? age)%Z; cbn; [rewrite T|]; reflexivity.
Qed.

Lemma lppSnapshot_after (i j : nat) :
  (i <= j)%nat -> (j <= horizon data)%nat ->
  retirementSnapshotTaken (after' i) = true ->
  lppAnnualPensionSnapshot (after' j) = lppAnnualPensionSnapshot (after' i).
Proof.
  intros Hij Hj T. induction j as [|j IH].
  - replace i with 0%nat by lia. reflexivity.
  - destruct (Nat.eq_dec i (S j)) as [->|Hne]; [reflexivity|].
    rewrite localsAfter_S by lia. rewrite body_unfold.
    cbn [lppAnnualPensionSnapshot].
    rewrite lppSnapshot_frozen.
    + apply IH; lia.
    + apply snapshotTaken_after; [lia|].
      apply snapshotTaken_after in T; [|lia]. unfold ageAt in *. lia.
Qed.

(** The annuity reported in a retired year is the snapshot the year leaves. *)
Lemma retired_pensionLPP (age : Z) (st : Locals) :
  (retirementAge data <= age)%Z ->
  pensionLPP (snd (phase' age st)) = lppAnnualPensionSnapshot (fst (phase' age st)).
Proof.
  intro H. unfold yearPhase.
  destruct (retirementAge data <=? age)%Z eqn:E; [reflexivity | lia].
Qed.

Lemma retired_pensionAHV (age : Z) (st : Locals) :
  (retirementAge data <= age)%Z ->
  pensionAHV (snd (phase' age st))
  = AHV_COUPLE_MAX_ANNUAL_2025 * inflationFactor data scenario age.
Proof.
  intro H. unfold yearPhase.
  destruct (retirementAge data <=? age)%Z eqn:E; [reflexivity | lia].
Qed.

Lemma inflationFactor_next (k : nat) :
  ~ 1 + baseInflationPct data scenario / 100 == 0 ->
  inflationFactor data scenario (ageAt data (S k))
  == inflationFactor data scenario (ageAt data k)
     * (1 + baseInflationPct data scenario / 100).
Proof.
  intro Hnz. unfold inflationFactor, Math.pow, ageAt.
  replace (currentAge data + Z.of_nat (S k) - currentAge data)%Z
    with (Z.of_nat k + 1)%Z by lia.
  replace (currentAge data + Z.of_nat k - currentAge data)%Z with (Z.of_nat k) by lia.
  rewrite Qpower_plus by exact Hnz. rewrite Qpower_1_r. reflexivity.
Qed.

(** C3 (as the code has it).  The snapshot block is entered in one
    iteration at most: in iteration [k] exactly when [k] simulates the
    first age that is at least the retirement age (so once when such a
    year exists, never when the retirement age is above 90).  Until then
    the flag is unset and the three variables of the snapshot hold 0; from
    the state that year leaves, the flag is set and the three variables
    hold, unchanged, what that year computed: 44100 times its inflation
    factor, 5.8 percent of the pillar-2 wealth it started with, and the
    pillar-3 wealth it started with divided by [max 1 (90 - retirement
    age)].  Every retired year reports that occupational annuity, and as
    private drawdown that yearly amount capped by the pillar-3 wealth the
    year starts with; so the occupational annuity reported in any two
    retired years is the same.  The public pension reported in a retired
    year is 44100 times the cumulative inflation factor of that year;
    from one retired year to the next it strictly increases when the base
    inflation of the run is positive, and stays the same when that rate
    is zero. *)
Theorem retirement_snapshot_once :
  (forall k, (retirementAge data <= ageAt data k)%Z <-> (firstRetiredIndex data <= k)%nat)
  /\ (forall k, (k < horizon data)%nat ->
        (((retirementAge data <=? ageAt data k)%Z
          && negb (retirementSnapshotTaken (after' k)))%bool = true
         <-> k = firstRetiredIndex data))
  /\ (forall k, (k <= horizon data)%nat -> (k <= firstRetiredIndex data)%nat ->
        retirementSnapshotTaken (after' k) = false
        /\ ahvAnnualPensionSnapshot (after' k) = 0
        /\ lppAnnualPensionSnapshot (after' k) = 0
        /\ pillar3AnnualDrawdownSnapshot (after' k) = 0)
  /\ (forall k, (firstRetiredIndex data < k)%nat -> (k <= horizon data)%nat ->
        retirementSnapshotTaken (after' k) = true
        /\ ahvAnnualPensionSnapshot (after' k)
           = AHV_COUPLE_MAX_ANNUAL_2025
             * inflationFactor data scenario (ageAt data (firstRetiredIndex data))
        /\ lppAnnualPensionSnapshot (after' k)
           = pillar2Wealth (after' (firstRetiredIndex data)) * LPP_CONVERSION_RATE
        /\ pillar3AnnualDrawdownSnapshot (after' k)
           = pillar3Wealth (after' (firstRetiredIndex data))
             / Math.max 1 (inject_Z (DEFAULT_MAX_AGE - retirementAge data)))
  /\ (forall i pi,
        nth_error (ScenarioResult.data result') i = Some pi ->
        (retirementAge data <= ProjectionPoint.age pi)%Z ->
        ProjectionPoint.pensionLPP pi
        = pillar2Wealth (after' (firstRetiredIndex data)) * LPP_CONVERSION_RATE
        /\ ProjectionPoint.pension3a pi
           = match variant with
             | Services =>
                 Math.min (pillar3Wealth (after' i))
                          (pillar3Wealth (after' (firstRetiredIndex data))
                           / Math.max 1 (inject_Z (DEFAULT_MAX_AGE - retirementAge data)))
             | Part000 =>
                 if Qltb 0 (pillar3Wealth (after' i)) then
                   if Qltb (pillar3Wealth (after' i))
                           (pillar3Wealth (after' (firstRetiredIndex data))
                            / Math.max 1 (inject_Z (DEFAULT_MAX_AGE - retirementAge data)))
                   then pillar3Wealth (after' i)
                   else pillar3Wealth (after' (firstRetiredIndex data))
                        / Math.max 1 (inject_Z (DEFAULT_MAX_AGE - retirementAge data))
                 else 0
             end)
  /\ (forall i j pi pj,
        nth_error (ScenarioResult.data result') i = Some pi ->
        nth_error (ScenarioResult.data result') j = Some pj ->
        (retirementAge data <= ProjectionPoint.age pi)%Z ->
        (retirementAge data <= ProjectionPoint.age pj)%Z ->
        ProjectionPoint.pensionLPP pi = ProjectionPoint.pensionLPP pj)
  /\ (forall i pi,
        nth_error (ScenarioResult.data result') i = Some pi ->
        (retirementAge data <= ProjectionPoint.age pi)%Z ->
        ProjectionPoint.pensionAHV pi
        = AHV_COUPLE_MAX_ANNUAL_2025
          * Math.pow (1 + baseInflationPct data scenario / 100) (Z.of_nat i))
  /\ (forall i pi pj,
        nth_error (ScenarioResult.data result') i = Some pi ->
        nth_error (ScenarioResult.data result') (S i) = Some pj ->
        (retirementAge data <= ProjectionPoint.age pi)%Z ->
        (0 < baseInflationPct data scenario ->
         ProjectionPoint.pensionAHV pi < ProjectionPoint.pensionAHV pj)
        /\ (baseInflationPct data scenario == 0 ->
            ProjectionPoint.pensionAHV pj == ProjectionPoint.pensionAHV pi)).
Proof.
  assert (Hnth : forall i p, nth_error (ScenarioResult.data result') i = Some p ->
            (i < horizon data)%nat
            /\ p = yearPoint variant startYear data scenario (ageAt data i) (after' i)).
  { intros i p H.
    assert (L : (i < horizon data)%nat).
    { rewrite <- (data_length variant startYear data scenario).
      apply nth_error_Some. congruence. }
    split; [exact L|]. rewrite data_nth in H by exact L. congruence. }
  split; [exact firstRetiredIndex_spec|].
  split; [exact guard_iff|].
  split; [exact snapshot_before|].
  split; [exact snapshot_after|].
  split; [|split; [|split]].
  - intros i pi Hi Ri. apply Hnth in Hi. destruct Hi as [Li ->].
    cbn [yearPoint ProjectionPoint.pensionLPP ProjectionPoint.pension3a
         ProjectionPoint.age] in *.
    rewrite retired_pensionLPP, retired_pension3a by assumption.
    change (fst (phase' (ageAt data i) (after' i)))
      with (fst (yearPhase variant data scenario (ageAt data i) (after' i))).
    assert (F : (firstRetiredIndex data < S i)%nat)
      by (apply firstRetiredIndex_spec in Ri; lia).
    destruct (snapshot_after (S i) F ltac:(lia)) as (_ & _ & L & D).
    rewrite localsAfter_S, body_unfold in L, D by lia.
    cbn [lppAnnualPensionSnapshot pillar3AnnualDrawdownSnapshot] in L, D.
    rewrite L, D. split; reflexivity.
  - assert (W : forall i j pi pj, (i <= j)%nat ->
        nth_error (ScenarioResult.data result') i = Some pi ->
        nth_error (ScenarioResult.data result') j = Some pj ->
        (retirementAge data <= ProjectionPoint.age pi)%Z ->
        (retirementAge data <= ProjectionPoint.age pj)%Z ->
        ProjectionPoint.pensionLPP pi = ProjectionPoint.pensionLPP pj).
    { intros i j pi pj Hij Hi Hj Ri Rj.
      apply Hnth in Hi. destruct Hi as [Li ->].
      apply Hnth in Hj. destruct Hj as [Lj ->].
      cbn [yearPoint ProjectionPoint.pensionLPP ProjectionPoint.age] in *.
      rewrite !retired_pensionLPP by assumption.
      change (lppAnnualPensionSnapshot (fst (phase' (ageAt data i) (after' i))))
        with (lppAnnualPensionSnapshot (body variant startYear data scenario
                                             (ageAt data i) (after' i))).
      change (lppAnnualPensionSnapshot (fst (phase' (ageAt data j) (after' j))))
        with (lppAnnualPensionSnapshot (body variant startYear data scenario
                                             (ageAt data j) (after' j))).
      rewrite <- !localsAfter_S by assumption.
      symmetry. apply lppSnapshot_after; [lia | lia |].
      apply snapshotTaken_after; [lia|]. unfold ageAt in *. lia. }
    intros i j pi pj Hi Hj Ri Rj.
    destruct (Nat.le_ge_cases i j) as [L|L].
    + apply (W i j); assumption.
    + symmetry. apply (W j i); assumption.
  - intros i pi Hi Ri. apply Hnth in Hi. destruct Hi as [Li ->].
    cbn [yearPoint ProjectionPoint.pensionAHV ProjectionPoint.age] in *.
    rewrite retired_pensionAHV by assumption.
    unfold inflationFactor, ageAt.
    replace (currentAge data + Z.of_nat i - currentAge data)%Z with (Z.of_nat i) by lia.
    reflexivity.
  - intros i pi pj Hi Hj Ri.
    apply Hnth in Hi. destruct Hi as [Li ->].
    apply Hnth in Hj. destruct Hj as [Lj ->].
    cbn [yearPoint ProjectionPoint.pensionAHV ProjectionPoint.age] in *.
    assert (Rj : (retirementAge data <= ageAt data (S i))%Z)
      by (unfold ageAt in *; lia).
    rewrite !retired_pensionAHV by assumption.
    unfold AHV_COUPLE_MAX_ANNUAL_2025. split.
    + intro Hpos.
      assert (Hnz : ~ 1 + baseInflationPct data scenario / 100 == 0)
        by (intro; qlin).
      pose proof (inflationFactor_next i Hnz) as E.
      assert (0 < inflationFactor data scenario (ageAt data i))
        by (apply Qpower_0_lt; qlin).
      assert (0 < inflationFactor data scenario (ageAt data i)
                  * (baseInflationPct data scenario / 100))
        by (apply Qmult_lt_0_compat; qlin).
      lra.
    + intro Hz.
      assert (Hnz : ~ 1 + baseInflationPct data scenario / 100 == 0)
        by (intro; qlin).
      pose proof (inflationFactor_next i Hnz) as E.
      assert (Z0 : baseInflationPct data scenario / 100 == 0) by qlin.
      rewrite Z0 in E. lra.
Qed.

End Snapshot.

(** The two ways in which the run departs from "exactly once" and
    "strictly increases".  A couple of 89 that works until 95 has no
    retired year: after the whole run the flag is still unset and the
    three variables still hold 0, in both copies.  And with a base
    inflation of zero percent the public pension of the second retired
    year is no higher than that of the first. *)
Lemma snapshot_never_taken_and_pension_flat :
  (retirementSnapshotTaken (finalLocals Services 2026 workingPast90 neutral) = false
   /\ pillar3AnnualDrawdownSnapshot (finalLocals Services 2026 workingPast90 neutral) = 0
   /\ retirementSnapshotTaken (finalLocals Part000 2026 workingPast90 neutral) = false
   /\ List.length
        (ScenarioResult.data (calculateProjections Services 2026 workingPast90 neutral))
      = 2%nat)
  /\ exists p0 p1,
       nth_error (ScenarioResult.data
                    (calculateProjections Services 2026 pensionersFlat neutral)) 0
       = Some p0
       /\ nth_error (ScenarioResult.data
                       (calculateProjections Services 2026 pensionersFlat neutral)) 1
          = Some p1
       /\ (retirementAge pensionersFlat <= ProjectionPoint.age p0)%Z
       /\ ProjectionPoint.pensionAHV p1 <= ProjectionPoint.pensionAHV p0.
Proof.
  split.
  - repeat split; vm_compute; reflexivity.
  - eexists. eexists.
    split; [vm_compute; reflexivity|].
    split; [vm_compute; reflexivity|].
    split; vm_compute; discriminate.
Qed.

(** ** Relocation *)

Section Relocation.
Variable variant : Variant.
Variable startYear : Z.
Variable data : FinancialData.
Variable scenario : ScenarioType.

Local Abbreviation after' := (localsAfter variant startYear data scenario).
Local Abbreviation result' := (calculateProjections variant startYear data scenario).
Local Abbreviation moves' := (moves variant data).
Local Abbreviation outgrows' := (outgrows variant data).

Lemma moves_unfold (st : Locals) :
  moves' st = negb (hasMovedHouse st) && outgrows' st.
Proof. reflexivity. Qed.

(** The flag records that the household outgrew its rooms in an earlier
    year. *)
Lemma hasMovedHouse_after (k : nat) :
  (k <= horizon data)%nat ->
  (hasMovedHouse (after' k) = true
   <-> exists j, (j < k)%nat /\ outgrows' (after' j) = true).
Proof.
  induction k as [|k IH]; intro Hk.
  - cbn. split; [discriminate | intros (j & Hj & _); lia].
  - rewrite localsAfter_S by lia. rewrite body_hasMovedHouse, moves_unfold.
    specialize (IH ltac:(lia)).
    destruct (hasMovedHouse (after' k)) eqn:M; cbn [negb andb].
    + split; [intros _ | reflexivity].
      destruct IH as [IH _]. destruct (IH eq_refl) as (j & Hj & O).
      exists j. split; [lia | exact O].
    + destruct (outgrows' (after' k)) eqn:O.
      * split; [intros _; exists k; split; [lia | exact O] | reflexivity].
      * split; [discriminate|]. intros (j & Hj & Oj).
        destruct (Nat.eq_dec j k) as [->|Hne]; [congruence|].
        apply IH. exists j. split; [lia | exact Oj].
Qed.

Lemma moves_iff (k : nat) :
  (k < horizon data)%nat ->
  (moves' (after' k) = true
   <-> outgrows' (after' k) = true
       /\ forall j, (j < k)%nat -> outgrows' (after' j) = false).
Proof.
  intro Hk. rewrite moves_unfold, andb_true_iff, negb_true_iff.
  pose proof (hasMovedHouse_after k ltac:(lia)) as F. split.
  - intros [M O]. split; [exact O|]. intros j Hj.
    destruct (outgrows' (after' j)) eqn:Oj; [|reflexivity].
    assert (hasMovedHouse (after' k) = true) by (apply F; exists j; auto).
    congruence.
  - intros [O Hall]. split; [|exact O].
    destruct (hasMovedHouse (after' k)) eqn:M; [|reflexivity].
    destruct F as [F _]. destruct (F eq_refl) as (j & Hj & Oj).
    rewrite (Hall j Hj) in Oj. discriminate.
Qed.

Lemma moves_once (i j : nat) :
  (i < horizon data)%nat -> (j < horizon data)%nat ->
  moves' (after' i) = true -> moves' (after' j) = true -> i = j.
Proof.
  intros Hi Hj Mi Mj.
  apply moves_iff in Mi; [|exact Hi]. apply moves_iff in Mj; [|exact Hj].
  destruct Mi as [Oi Ai], Mj as [Oj Aj].
  destruct (Nat.lt_trichotomy i j) as [L|[E|G]]; [|exact E|].
  - rewrite (Aj i L) in Oi. discriminate.
  - rewrite (Ai j G) in Oj. discriminate.
Qed.

Lemma phase_notes (age : Z) (st : Locals) (note : string) :
  note <> noteRetired ->
  (In note (notes (snd (yearPhase variant data scenario age st)))
   <-> In note (if moves' st then [noteMoved] else [])).
Proof.
  intro Hne. unfold yearPhase.
  destruct (negb (retirementAge data <=? age)%Z); cbn [snd workingPhase retirementPhase notes].
  - reflexivity.
  - destruct (negb (retirementSnapshotTaken (afterHousing variant data scenario st)));
      [|reflexivity].
    destruct variant; [reflexivity|].
    rewrite in_app_iff. cbn [In]. split; [|auto].
    intros [H|H]; [exact H|]. destruct H as [H|H]; [congruence | destruct H].
Qed.

(** The snapshot of a year carries the relocation note exactly when the
    relocation block was entered that year. *)
Lemma hasNote_moved (age : Z) (st : Locals) :
  hasNote noteMoved (yearPoint variant startYear data scenario age st)
  <-> moves' st = true.
Proof.
  unfold hasNote. cbn [yearPoint ProjectionPoint.notes].
  assert (N : In noteMoved (yearNotes variant data scenario age st)
              <-> moves' st = true).
  { unfold yearNotes.
    assert (P := phase_notes age st noteMoved ltac:(discriminate)).
    destruct (depletes variant _ _).
    - rewrite in_app_iff, P. cbn [In].
      destruct (moves' st); cbn [In]; split; intro H; auto;
        repeat match goal with
               | H : _ \/ _ |- _ => destruct H
               | H : False |- _ => destruct H
               end; discriminate.
    - rewrite P. destruct (moves' st); cbn [In]; split; intro H; auto;
        repeat match goal with
               | H : _ \/ _ |- _ => destruct H
               | H : False |- _ => destruct H
               end; discriminate. }
  destruct (yearNotes variant data scenario age st) eqn:E.
  - rewrite <- N. cbn. tauto.
  - exact N.
Qed.

(** C5 (as the code has it).  The relocation block is entered in one year
    at most: in year [k] exactly when the household outgrows its rooms in
    year [k] and did not in any earlier year; that year's snapshot, and no
    other, carries the note.  The rent charged in that year (a twelfth of
    its housing expenses) is 1.30 times the rent immediately before the
    block, which is the rent after that year's increase.  The rent of the
    year after is that amount times the yearly increase factor
    [1 + (housingCostIncrease + inflation delta) / 100]. *)
Theorem relocation_once_and_rent_shock :
  (forall k, (k < horizon data)%nat ->
     (moves' (after' k) = true
      <-> outgrows' (after' k) = true
          /\ forall j, (j < k)%nat -> outgrows' (after' j) = false))
  /\ (forall i j, (i < horizon data)%nat -> (j < horizon data)%nat ->
        moves' (after' i) = true -> moves' (after' j) = true -> i = j)
  /\ (forall k pk, nth_error (ScenarioResult.data result') k = Some pk ->
        (hasNote noteMoved pk <-> moves' (after' k) = true)
        /\ ProjectionPoint.housingExpenses pk = currentRent (after' (S k)) * 12)
  /\ (forall k, (k < horizon data)%nat -> moves' (after' k) = true ->
        currentRent (after' (S k)) = inflatedRent data scenario (after' k) * 1.30)
  /\ (forall k, (S k < horizon data)%nat -> moves' (after' k) = true ->
        currentRent (after' (S (S k)))
        = inflatedRent data scenario (after' k) * 1.30
          * (1 + (housingCostIncrease data + inflationModPct (modifiers scenario)) / 100)).
Proof.
  split; [exact moves_iff|]. split; [exact moves_once|].
  assert (R : forall k, (k < horizon data)%nat -> moves' (after' k) = true ->
        currentRent (after' (S k)) = inflatedRent data scenario (after' k) * 1.30).
  { intros k Hk M. rewrite localsAfter_S by exact Hk.
    rewrite body_currentRent. unfold rentCharged. rewrite M. reflexivity. }
  split; [|split; [exact R|]].
  - intros k pk Hnth.
    assert (L : (k < horizon data)%nat).
    { rewrite <- (data_length variant startYear data scenario).
      apply nth_error_Some. congruence. }
    rewrite data_nth in Hnth by exact L. injection Hnth as <-.
    split; [apply hasNote_moved|].
    cbn [yearPoint ProjectionPoint.housingExpenses].
    rewrite localsAfter_S by exact L. rewrite body_currentRent. reflexivity.
  - intros k Hk M.
    rewrite (localsAfter_S variant startYear data scenario (S k)) by exact Hk.
    rewrite body_currentRent. unfold rentCharged.
    assert (M' : moves' (after' (S k)) = false).
    { destruct (moves' (after' (S k))) eqn:E; [|reflexivity].
      assert (k = S k) by (apply moves_once; auto; lia). lia. }
    rewrite M'. unfold inflatedRent at 1. rewrite R by (auto; lia). reflexivity.
Qed.

End Relocation.

(** A family of five in 3.5 rooms moves in the first year; with a rent
    increase of 2 percent a year, the rent of the year after (a twelfth of
    that year's housing expenses) is above 1.30 times the rent immediately
    before the move. *)
Lemma rent_year_after_move_exceeds_shock :
  moves Services familyOfFive (localsAfter Services 2026 familyOfFive neutral 0) = true
  /\ exists p1,
       nth_error (ScenarioResult.data (calculateProjections Services 2026 familyOfFive neutral)) 1
       = Some p1
       /\ 1.30 * inflatedRent familyOfFive neutral
                   (localsAfter Services 2026 familyOfFive neutral 0)
          < ProjectionPoint.housingExpenses p1 / 12.
Proof.
  split; [vm_compute; reflexivity|].
  eexists. split; [vm_compute; reflexivity|].
  vm_compute. reflexivity.
Qed.

(** ** Non-negative balances *)

Lemma lookup_In (k : string) (tbl : list (string * Q)) (x : Q) :
  lookup k tbl = Some x -> exists k', In (k', x) tbl.
Proof.
  induction tbl as [|[k' y] tbl IH]; cbn; [discriminate|].
  destruct (String.eqb k k').
  - intro E. injection E as ->. exists k'. auto.
  - intro E. destruct (IH E) as (k'' & H). exists k''. auto.
Qed.

Lemma getTaxFactor_bounds (canton : string) (t : Q) :
  getTaxFactor canton = Number t -> 0.70 <= t <= 0.82.
Proof.
  assert (T : forall k x, In (k, x) taxFactorByCanton -> 0.70 <= x <= 0.82).
  { intros k x H. cbn in H.
    repeat (destruct H as [H|H]; [injection H as _ <-; lra|]). destruct H. }
  assert (D : 0.70 <= defaultTaxFactor <= 0.82) by (cbn; lra).
  unfold getTaxFactor. destruct (String.eqb canton "").
  - intro E. injection E as <-. exact D.
  - destruct (lookup canton taxFactorByCanton) as [x|] eqn:E.
    + intro N. injection N as <-.
      apply lookup_In in E. destruct E as (k & H). exact (T k x H).
    + destruct (existsb (String.eqb canton) objectPrototypeKeys); [discriminate|].
      intro N. injection N as <-. exact D.
Qed.

Lemma taxFactor_bounds (data : FinancialData) :
  taxFactorIsNumber data = true -> 0.70 <= taxFactor data <= 0.82.
Proof.
  unfold taxFactorIsNumber, taxFactor.
  destruct (getTaxFactor (canton data)) as [t|] eqn:E; [|discriminate].
  intros _. exact (getTaxFactor_bounds (canton data) t E).
Qed.

Lemma effectiveReturn_nonneg (data : FinancialData) (scenario : ScenarioType) :
  0 <= effectiveInvestmentReturnPct data scenario.
Proof. apply max_l. Qed.

Lemma absorbDeficit_nonneg (cash invested deficit : Q) :
  0 <= cash -> 0 <= invested ->
  0 <= fst (absorbDeficit cash invested deficit)
  /\ 0 <= snd (absorbDeficit cash invested deficit).
Proof.
  intros Hc Hi. unfold absorbDeficit. qcase; cbn [fst snd].
  - split; lra.
  - split; [lra | apply max_l].
Qed.

(** With a base rate of at least -99.5 percent the yearly factors applied
    to the salaries and to the bonus are non-negative in every scenario. *)
Lemma salary_factor_nonneg (data : FinancialData) (scenario : ScenarioType)
      (age : Z) (stage : CareerStage) :
  -99.5 <= orElse (expectedSalaryIncrease data) 1.5 ->
  0 <= 1 + getSalaryGrowthRate age stage (baseInflationPct data scenario / 100)
       + salaryGrowthModPct (modifiers scenario) / 100.
Proof.
  intro H. unfold getSalaryGrowthRate, baseInflationPct, modifiers.
  destruct (age <? 35)%Z; [|destruct (age <? 45)%Z; [|destruct (age <? 55)%Z]];
    destruct stage, scenario; cbn [modifiersOf salaryGrowthModPct inflationModPct];
    qlin.
Qed.

Lemma bonus_factor_nonneg (data : FinancialData) (scenario : ScenarioType) :
  -99.5 <= orElse (expectedSalaryIncrease data) 1.5 ->
  0 <= 1 + baseInflationPct data scenario / 100.
Proof.
  intro H. unfold baseInflationPct, modifiers.
  destruct scenario; cbn [modifiersOf inflationModPct]; qlin.
Qed.

Section Solvent.
Variable variant : Variant.
Variable startYear : Z.
Variable data : FinancialData.
Variable scenario : ScenarioType.
Hypothesis money : nonnegMonetary data.
Hypothesis growth : -99.5 <= orElse (expectedSalaryIncrease data) 1.5.
Hypothesis numeric : taxFactorIsNumber data = true.

Local Abbreviation after' := (localsAfter variant startYear data scenario).
Local Abbreviation phase' := (yearPhase variant data scenario).
Local Abbreviation result' := (calculateProjections variant startYear data scenario).

Lemma initial_nonneg : nonnegLocals (initialLocals data).
Proof.
  unfold nonnegMonetary in money. unfold nonnegLocals, initialLocals.
  cbn. repeat split; lra.
Qed.

Lemma workingPhase_nonneg (age : Z) (expenses : Q) (ns : list string) (st : Locals) :
  nonnegLocals st ->
  nonnegLocals (fst (workingPhase variant data scenario age expenses ns st)).
Proof.
  intros (S1 & S2 & B & P2 & P3 & C & I).
  pose proof (effectiveReturn_nonneg data scenario) as E.
  pose proof (taxFactor_bounds data numeric) as T.
  assert (F : 0 <= 1 + effectiveInvestmentReturnPct data scenario / 100) by qlin.
  assert (N : 0 <= grossSalary1 st * taxFactor data + grossSalary2 st * taxFactor data
                   + grossBonus st * 0.65).
  { assert (0 <= grossSalary1 st * taxFactor data) by (apply Qmult_le_0_compat; lra).
    assert (0 <= grossSalary2 st * taxFactor data) by (apply Qmult_le_0_compat; lra).
    lra. }
  unfold nonnegLocals, workingPhase.
  cbn [fst grossSalary1 grossSalary2 grossBonus pillar2Wealth pillar3Wealth
       cashBuffer investedWealth].
  split; [apply Qmult_le_0_compat; [exact S1 | apply salary_factor_nonneg; exact growth]|].
  split; [apply Qmult_le_0_compat; [exact S2 | apply salary_factor_nonneg; exact growth]|].
  split; [apply Qmult_le_0_compat; [exact B | apply bonus_factor_nonneg; exact growth]|].
  split; [unfold LPP_INTEREST_RATE; lra|].
  split.
  - assert (0 <= pillar3Wealth st * (1 + effectiveInvestmentReturnPct data scenario / 100))
      by (apply Qmult_le_0_compat; assumption).
    unfold nonnegMonetary in money.
    qcase; [lra|]. destruct variant; [pose proof (max_l 0 (grossSalary1 st * taxFactor data
      + grossSalary2 st * taxFactor data + grossBonus st * 0.65)); lra | lra].
  - match goal with
    | |- 0 <= fst ?l /\ 0 <= snd ?l * _ =>
        assert (L : 0 <= fst l /\ 0 <= snd l)
    end.
    { unfold workingLedger. qcases; cbn [fst snd];
        first [ split; lra | apply absorbDeficit_nonneg; assumption ]. }
    destruct L as [L1 L2]. split; [exact L1 | apply Qmult_le_0_compat; assumption].
Qed.

Lemma retirementPhase_nonneg (infl expenses : Q) (ns : list string) (st : Locals) :
  nonnegLocals st ->
  nonnegLocals (fst (retirementPhase variant data scenario infl expenses ns st)).
Proof.
  intros (S1 & S2 & B & P2 & P3 & C & I).
  pose proof (effectiveReturn_nonneg data scenario) as E.
  assert (F : 0 <= 1 + effectiveInvestmentReturnPct data scenario / 100) by qlin.
  assert (G : 0 <= 1 + effectiveInvestmentReturnPct data scenario / 100 * 0.3) by qlin.
  unfold nonnegLocals, retirementPhase.
  cbn [fst grossSalary1 grossSalary2 grossBonus pillar2Wealth pillar3Wealth
       cashBuffer investedWealth].
  split; [exact S1|]. split; [exact S2|]. split; [exact B|]. split; [lra|].
  split; [apply Qmult_le_0_compat; [apply max_l | exact G]|].
  match goal with
  | |- 0 <= fst ?l /\ 0 <= snd ?l * _ =>
      assert (L : 0 <= fst l /\ 0 <= snd l)
  end.
  { unfold retiredLedger. qcases; cbn [fst snd];
      first [ split; lra | apply absorbDeficit_nonneg; assumption ]. }
  destruct L as [L1 L2]. split; [exact L1 | apply Qmult_le_0_compat; assumption].
Qed.

Lemma afterHousing_nonneg (st : Locals) :
  nonnegLocals st -> nonnegLocals (afterHousing variant data scenario st).
Proof. intro H. exact H. Qed.

Lemma phase_nonneg (age : Z) (st : Locals) :
  nonnegLocals st -> nonnegLocals (fst (phase' age st)).
Proof.
  intro H. unfold yearPhase. destruct (negb (retirementAge data <=? age)%Z).
  - apply workingPhase_nonneg, afterHousing_nonneg, H.
  - apply retirementPhase_nonneg, afterHousing_nonneg, H.
Qed.

Lemma yearWealth_nonneg (age : Z) (st : Locals) :
  nonnegLocals st -> 0 <= yearWealth variant data scenario age st.
Proof.
  intro H. apply (phase_nonneg age) in H.
  destruct H as (_ & _ & _ & P2 & P3 & C & I). unfold yearWealth. cbv zeta. lra.
Qed.

Lemma depletes_never (age : Z) (st : Locals) :
  nonnegLocals st ->
  depletes variant (yearWealth variant data scenario age st) (fst (phase' age st)) = false.
Proof.
  intro H. unfold depletes.
  assert (Qltb (yearWealth variant data scenario age st) 0 = false)
    as -> by (apply Qltb_false, yearWealth_nonneg, H).
  reflexivity.
Qed.

Lemma body_nonneg (age : Z) (st : Locals) :
  nonnegLocals st -> nonnegLocals (body variant startYear data scenario age st).
Proof. intro H. rewrite body_unfold. exact (phase_nonneg age st H). Qed.

Lemma body_not_depleted (age : Z) (st : Locals) :
  nonnegLocals st -> savingsDepletedAge st = None ->
  savingsDepletedAge (body variant startYear data scenario age st) = None.
Proof.
  intros H N. rewrite body_unfold. cbn [savingsDepletedAge].
  rewrite depletes_never by exact H.
  destruct (phase_frame variant data scenario age st) as (_ & _ & _ & _ & _ & ->).
  exact N.
Qed.

Lemma after_nonneg (k : nat) :
  (k <= horizon data)%nat ->
  nonnegLocals (after' k) /\ savingsDepletedAge (after' k) = None.
Proof.
  induction k as [|k IH]; intro Hk.
  - split; [apply initial_nonneg | reflexivity].
  - destruct (IH ltac:(lia)) as [N D]. rewrite localsAfter_S by lia.
    split; [apply body_nonneg, N | apply body_not_depleted; assumption].
Qed.

Lemma point_buckets (age : Z) (st : Locals) :
  nonnegLocals st -> bucketsNonneg (yearPoint variant startYear data scenario age st).
Proof.
  intro H. apply (phase_nonneg age) in H.
  destruct H as (_ & _ & _ & P2 & P3 & C & I).
  unfold bucketsNonneg. cbn. repeat split; assumption.
Qed.

Lemma point_not_depleted (age : Z) (st : Locals) :
  nonnegLocals st ->
  ~ hasNote noteDepleted (yearPoint variant startYear data scenario age st).
Proof.
  intro H. unfold hasNote. cbn [yearPoint ProjectionPoint.notes].
  assert (N : ~ In noteDepleted (yearNotes variant data scenario age st)).
  { unfold yearNotes. rewrite depletes_never by exact H.
    rewrite (phase_notes variant data scenario age st noteDepleted) by discriminate.
    destruct (moves variant data st); cbn [In]; [|tauto].
    intros [E|[]]. discriminate E. }
  destruct (yearNotes variant data scenario age st); [tauto | exact N].
Qed.

End Solvent.

(** C6 (as the code has it).  For every profile whose amounts of money are
    non-negative, whose expected salary increase is at least -99.5
    percent and whose canton finds a number in the tax table, every yearly
    snapshot of every scenario run reports non-negative values for the
    cash buffer, the invested wealth, the pillar-2 wealth and the pillar-3
    wealth. *)
Theorem buckets_never_negative
        (variant : Variant) (startYear : Z) (data : FinancialData)
        (scenario : ScenarioType) (pt : ProjectionPoint.t) :
  nonnegMonetary data ->
  -99.5 <= orElse (expectedSalaryIncrease data) 1.5 ->
  taxFactorIsNumber data = true ->
  In pt (ScenarioResult.data (calculateProjections variant startYear data scenario)) ->
  bucketsNonneg pt.
Proof.
  intros M G N Hin. apply data_In in Hin. destruct Hin as (k & Hk & ->).
  apply point_buckets; [exact M | exact G | exact N |].
  apply after_nonneg; [exact M | exact G | exact N | lia].
Qed.

Lemma buckets_never_negative_witness :
  bucketsNonneg
    (yearPoint Services 2026 lateCareer pessimistic 89 (initialLocals lateCareer)).
Proof.
  apply (buckets_never_negative Services 2026 lateCareer pessimistic
           (yearPoint Services 2026 lateCareer pessimistic 89 (initialLocals lateCareer))).
  - unfold nonnegMonetary. repeat split; vm_compute; discriminate.
  - vm_compute. discriminate.
  - vm_compute. reflexivity.
  - vm_compute. left. reflexivity.
Defined.

(** Every amount of money of the profile is non-negative, yet the second
    snapshot reports a negative pillar-2 wealth: the salary, expected to
    change by -300 percent, has turned negative and with it the
    contribution. *)
Lemma pillar2_negative_after_salary_collapse :
  nonnegMonetary collapsingSalary
  /\ taxFactorIsNumber collapsingSalary = true
  /\ exists p1,
       nth_error (ScenarioResult.data
                    (calculateProjections Services 2026 collapsingSalary neutral)) 1
       = Some p1
       /\ ProjectionPoint.pillar2Wealth p1 < 0.
Proof.
  split; [|split].
  - unfold nonnegMonetary. repeat split; vm_compute; discriminate.
  - vm_compute. reflexivity.
  - eexists. split; [vm_compute; reflexivity|]. vm_compute. reflexivity.
Qed.

(** C7 (as the code has it).  For every profile whose amounts of money are
    non-negative, whose expected salary increase is at least -99.5
    percent and whose canton finds a number in the tax table, the
    depletion block is never entered: [savingsDepletedAge] is null in the
    result, no snapshot carries the depletion note, the older copy's
    [isViable] (no depletion age) holds, and so does the newer copy's (a
    final wealth of at least 0). *)
Theorem depletion_unreachable
        (variant : Variant) (startYear : Z) (data : FinancialData)
        (scenario : ScenarioType) :
  nonnegMonetary data ->
  -99.5 <= orElse (expectedSalaryIncrease data) 1.5 ->
  taxFactorIsNumber data = true ->
  ScenarioResult.savingsDepletedAge (calculateProjections variant startYear data scenario)
  = None
  /\ (forall pt,
        In pt (ScenarioResult.data (calculateProjections variant startYear data scenario)) ->
        ~ hasNote noteDepleted pt)
  /\ ScenarioResult.isViable (calculateProjections variant startYear data scenario) = true
  /\ ScenarioResult.isViable (calculateProjections Part000 startYear data scenario) = true.
Proof.
  intros M G N.
  assert (D : forall v, ScenarioResult.savingsDepletedAge
                          (calculateProjections v startYear data scenario) = None).
  { intro v. apply (after_nonneg v startYear data scenario M G N (horizon data)). lia. }
  assert (V : forall v, ScenarioResult.isViable
                          (calculateProjections v startYear data scenario) = true).
  { intro v. specialize (D v).
    unfold calculateProjections, resultOf in *.
    cbn [ScenarioResult.isViable ScenarioResult.savingsDepletedAge] in *.
    destruct v.
    - fold (resultOf Services scenario (finalLocals Services startYear data scenario)).
      fold (calculateProjections Services startYear data scenario).
      change (lastTotalWealth (points (finalLocals Services startYear data scenario)))
        with (ScenarioResult.finalWealth (calculateProjections Services startYear data scenario)).
      apply Qleb_true.
      destruct (horizon data) as [|n] eqn:Hn.
      + rewrite finalWealth_empty by exact Hn. lra.
      + rewrite (finalWealth_last Services startYear data scenario n Hn).
        apply yearWealth_nonneg; [exact M | exact G | exact N |].
        apply after_nonneg; [exact M | exact G | exact N | lia].
    - rewrite D. reflexivity. }
  split; [apply D|]. split; [|split; apply V].
  intros pt Hin. apply data_In in Hin. destruct Hin as (k & Hk & ->).
  apply point_not_depleted; [exact M | exact G | exact N |].
  apply after_nonneg; [exact M | exact G | exact N | lia].
Qed.

Lemma depletion_unreachable_witness :
  ScenarioResult.savingsDepletedAge (calculateProjections Part000 2026 lateCareer pessimistic)
  = None.
Proof.
  apply (depletion_unreachable Part000 2026 lateCareer pessimistic).
  - unfold nonnegMonetary. repeat split; vm_compute; discriminate.
  - vm_compute. discriminate.
  - vm_compute. reflexivity.
Defined.

(** Every amount of money of the profile is non-negative, yet the run
    enters the depletion block at age 89: the negative pillar-2 wealth
    makes the total wealth negative. *)
Lemma depletion_reached_after_salary_collapse :
  nonnegMonetary collapsingSalary
  /\ taxFactorIsNumber collapsingSalary = true
  /\ ScenarioResult.savingsDepletedAge
       (calculateProjections Services 2026 collapsingSalary neutral) = Some 89%Z.
Proof.
  split; [|split].
  - unfold nonnegMonetary. repeat split; vm_compute; discriminate.
  - vm_compute. reflexivity.
  - vm_compute. reflexivity.
Qed.

(** ** Order between two runs *)

Ltac proj_locals :=
  cbn [fst snd afterHousing grossSalary1 grossSalary2 grossBonus pillar2Wealth
       pillar3Wealth cashBuffer investedWealth ahvAnnualPensionSnapshot
       lppAnnualPensionSnapshot pillar3AnnualDrawdownSnapshot retirementSnapshotTaken
       childrenAges points maxWealth savingsDepletedAge currentRent hasMovedHouse].

Lemma mul_le_l (a b c : Q) : 0 <= a -> b <= c -> a * b <= a * c.
Proof.
  intros Ha Hbc. rewrite (Qmult_comm a b), (Qmult_comm a c).
  apply Qmult_le_compat_r; assumption.
Qed.

Lemma absorbDeficit_mono (c1 c2 i1 i2 d1 d2 : Q) :
  0 <= c1 -> c1 <= c2 -> 0 <= i1 -> i1 <= i2 -> d2 <= d1 ->
  fst (absorbDeficit c1 i1 d1) <= fst (absorbDeficit c2 i2 d2)
  /\ snd (absorbDeficit c1 i1 d1) <= snd (absorbDeficit c2 i2 d2).
Proof.
  intros. unfold absorbDeficit, Math.max. qcases; cbn [fst snd]; split; lra.
Qed.

Lemma workingLedger_mono (c1 c2 i1 i2 s1 s2 : Q) :
  0 <= c1 -> c1 <= c2 -> 0 <= i1 -> i1 <= i2 -> s1 <= s2 ->
  fst (workingLedger c1 i1 s1) <= fst (workingLedger c2 i2 s2)
  /\ snd (workingLedger c1 i1 s1) <= snd (workingLedger c2 i2 s2).
Proof.
  intros. unfold workingLedger, absorbDeficit, Math.max.
  qcases; cbn [fst snd]; split; lra.
Qed.

Lemma retiredLedger_mono (c1 c2 i1 i2 s1 s2 : Q) :
  0 <= c1 -> c1 <= c2 -> 0 <= i1 -> i1 <= i2 -> s1 <= s2 ->
  fst (retiredLedger c1 i1 s1) <= fst (retiredLedger c2 i2 s2)
  /\ snd (retiredLedger c1 i1 s1) <= snd (retiredLedger c2 i2 s2).
Proof.
  intros. unfold retiredLedger, absorbDeficit, Math.max.
  qcases; cbn [fst snd]; split; lra.
Qed.

Lemma workingLedger_nonneg (c i s : Q) :
  0 <= c -> 0 <= i -> 0 <= fst (workingLedger c i s) /\ 0 <= snd (workingLedger c i s).
Proof.
  intros. unfold workingLedger, absorbDeficit, Math.max.
  qcases; cbn [fst snd]; split; lra.
Qed.

Lemma retiredLedger_nonneg (c i s : Q) :
  0 <= c -> 0 <= i -> 0 <= fst (retiredLedger c i s) /\ 0 <= snd (retiredLedger c i s).
Proof.
  intros. unfold retiredLedger, absorbDeficit, Math.max.
  qcases; cbn [fst snd]; split; lra.
Qed.

(** Growth at a higher rate of a larger non-negative balance. *)
Lemma growth_mono (x1 x2 e1 e2 k : Q) :
  0 <= x1 -> x1 <= x2 -> 0 <= e1 -> e1 <= e2 -> 0 <= k ->
  x1 * (1 + e1 / 100 * k) <= x2 * (1 + e2 / 100 * k).
Proof.
  intros. apply mul_mono; try assumption.
  - assert (0 <= e1 / 100 * k) by (apply Qmult_le_0_compat; [qlin | assumption]). lra.
  - assert (e1 / 100 * k <= e2 / 100 * k) by (apply Qmult_le_compat_r; [qlin | assumption]).
    lra.
Qed.

Lemma growth_mono1 (x1 x2 e1 e2 : Q) :
  0 <= x1 -> x1 <= x2 -> 0 <= e1 -> e1 <= e2 ->
  x1 * (1 + e1 / 100) <= x2 * (1 + e2 / 100).
Proof.
  intros. apply mul_mono; try assumption; qlin.
Qed.

Lemma universityCost_nonneg (variant : Variant) (data : FinancialData) :
  0 <= universitySupport data -> 0 <= universityCost variant data.
Proof.
  intro H. unfold universityCost. destruct variant; [exact H|].
  destruct (luxuryLevel data); qcases; lra.
Qed.

Lemma childrenLoop_expenses_nonneg (variant : Variant) (data : FinancialData)
      (ages : list Z) (expenses : Q) (active : Z) :
  0 <= monthlyDaycareCost data -> 0 <= monthlySchoolActivityCost data ->
  0 <= universitySupport data -> 0 <= expenses ->
  0 <= annualChildrenExpenses (childrenLoop variant data ages expenses active).
Proof.
  intros Hd Hs Hu. pose proof (universityCost_nonneg variant data Hu) as Hc.
  revert expenses active. induction ages as [|childAge rest IH]; intros expenses active He.
  - exact He.
  - cbn [childrenLoop]. destruct (childAge <? 0)%Z; cbn [annualChildrenExpenses].
    + apply IH, He.
    + apply IH.
      destruct (childAge <? 5)%Z; [lra|].
      destruct ((5 <=? childAge)%Z && (childAge <? 19)%Z); [lra|].
      destruct ((19 <=? childAge)%Z && (childAge <? 25)%Z); lra.
Qed.

Lemma inflationFactor_start (data : FinancialData) (scenario : ScenarioType) :
  inflationFactor data scenario (currentAge data) = 1.
Proof. unfold inflationFactor. rewrite Z.sub_diag. reflexivity. Qed.

Lemma effectiveReturn_scenarios (data : FinancialData) :
  effectiveInvestmentReturnPct data pessimistic
  <= effectiveInvestmentReturnPct data optimistic.
Proof.
  unfold effectiveInvestmentReturnPct. apply max_mono; [lra|].
  cbn [modifiers modifiersOf returnModPct]. lra.
Qed.

Section FirstYear.
Variable variant : Variant.
Variable data : FinancialData.
Hypothesis money : nonnegMonetary data.

Lemma first_year_rent (st : Locals) :
  0 <= currentRent st ->
  inflatedRent data optimistic st <= inflatedRent data pessimistic st.
Proof.
  intro R. unfold inflatedRent. apply mul_le_l; [exact R|].
  cbn [modifiers modifiersOf inflationModPct]. qlin.
Qed.

Lemma first_year_expenses (st : Locals) :
  0 <= currentRent st ->
  yearExpenses variant data optimistic (currentAge data) st
  <= yearExpenses variant data pessimistic (currentAge data) st.
Proof.
  intro R. pose proof (first_year_rent st R) as HR.
  unfold nonnegMonetary in money.
  assert (C : 0 <= annualChildrenExpenses (yearPass variant data st)).
  { apply childrenLoop_expenses_nonneg; lra. }
  unfold yearExpenses, rentCharged. rewrite !inflationFactor_start.
  unfold expenseFactor. cbn [modifiers modifiersOf expenseMultiplier orElse].
  destruct (moves variant data st); lra.
Qed.

Lemma first_year_wealth :
  yearWealth variant data pessimistic (currentAge data) (initialLocals data)
  <= yearWealth variant data optimistic (currentAge data) (initialLocals data).
Proof.
  pose proof (effectiveReturn_scenarios data) as E.
  pose proof (effectiveReturn_nonneg data pessimistic) as E0.
  assert (R : 0 <= currentRent (initialLocals data))
    by (unfold nonnegMonetary in money; cbn; lra).
  pose proof (first_year_expenses (initialLocals data) R) as X.
  assert (C0 : 0 <= cashBuffer (initialLocals data))
    by (unfold nonnegMonetary in money; cbn; lra).
  assert (I0 : 0 <= investedWealth (initialLocals data))
    by (unfold nonnegMonetary in money; cbn; lra).
  assert (P0 : 0 <= pillar3Wealth (initialLocals data))
    by (unfold nonnegMonetary in money; cbn; lra).
  unfold yearWealth, yearPhase. cbv zeta.
  rewrite !inflationFactor_start.
  destruct (negb (retirementAge data <=? currentAge data)%Z).
  - unfold workingPhase. proj_locals.
    match goal with
    | |- fst (workingLedger ?c ?i ?s1) + snd (workingLedger ?c ?i ?s1) * _ + _ + _
         <= fst (workingLedger ?c ?i ?s2) + _ + _ + _ =>
        destruct (workingLedger_mono c c i i s1 s2) as [L1 L2];
          [lra | lra | lra | lra | lra |];
        destruct (workingLedger_nonneg c i s1) as [_ N]; [lra | lra |];
        pose proof (growth_mono1 _ _ _ _ N L2 E0 E) as G
    end.
    pose proof (growth_mono1 _ _ _ _ P0 (Qle_refl _) E0 E) as G3.
    lra.
  - unfold retirementPhase. proj_locals. cbn [negb].
    match goal with
    | |- fst (retiredLedger ?c ?i ?s1) + snd (retiredLedger ?c ?i ?s1) * _ + _ + _
         <= fst (retiredLedger ?c ?i ?s2) + _ + _ + _ =>
        destruct (retiredLedger_mono c c i i s1 s2) as [L1 L2];
          [lra | lra | lra | lra | lra |];
        destruct (retiredLedger_nonneg c i s1) as [_ N]; [lra | lra |];
        pose proof (growth_mono1 _ _ _ _ N L2 E0 E) as G
    end.
    match goal with
    | |- context [Math.max 0 ?y * (1 + _ / 100 * 0.3)] =>
        pose proof (growth_mono (Math.max 0 y) (Math.max 0 y) _ _ 0.3
                                (max_l 0 y) (Qle_refl _) E0 E ltac:(lra)) as G3
    end.
    lra.
Qed.

End FirstYear.

(** In the first simulated year the pessimistic run never reports more
    total wealth than the optimistic run. *)
Lemma first_snapshot_order
      (variant : Variant) (startYear : Z) (data : FinancialData)
      (p q : ProjectionPoint.t) :
  nonnegMonetary data ->
  nth_error (ScenarioResult.data (calculateProjections variant startYear data pessimistic)) 0
  = Some p ->
  nth_error (ScenarioResult.data (calculateProjections variant startYear data optimistic)) 0
  = Some q ->
  ProjectionPoint.totalWealth p <= ProjectionPoint.totalWealth q.
Proof.
  intros M Hp Hq.
  assert (L : (0 < horizon data)%nat).
  { rewrite <- (data_length variant startYear data pessimistic).
    apply nth_error_Some. congruence. }
  rewrite data_nth in Hp, Hq by exact L.
  injection Hp as <-. injection Hq as <-.
  cbn [yearPoint ProjectionPoint.totalWealth].
  unfold ageAt. rewrite Z.add_0_r.
  exact (first_year_wealth variant data M).
Qed.

(** C1 (as the code has it).  For every profile with non-negative amounts
    of money whose run covers a single year (current age 90), the final
    wealth of the pessimistic run does not exceed the final wealth of the
    optimistic run.  (Over more years the order can turn: the pessimistic
    inflation delta also raises salaries, bonus and public pension.) *)
Theorem pessimistic_below_optimistic_single_year
        (variant : Variant) (startYear : Z) (data : FinancialData) :
  nonnegMonetary data ->
  currentAge data = 90%Z ->
  ScenarioResult.finalWealth (calculateProjections variant startYear data pessimistic)
  <= ScenarioResult.finalWealth (calculateProjections variant startYear data optimistic).
Proof.
  intros M A.
  assert (H : horizon data = 1%nat) by (unfold horizon; rewrite A; reflexivity).
  rewrite !(finalWealth_last variant startYear data _ 0 H).
  unfold ageAt. rewrite Z.add_0_r.
  exact (first_year_wealth variant data M).
Qed.

Lemma pessimistic_below_optimistic_single_year_witness :
  ScenarioResult.finalWealth (calculateProjections Services 2026 lastYear pessimistic)
  <= ScenarioResult.finalWealth (calculateProjections Services 2026 lastYear optimistic).
Proof.
  apply (pessimistic_below_optimistic_single_year Services 2026 lastYear).
  - unfold nonnegMonetary. repeat split; vm_compute; discriminate.
  - reflexivity.
Defined.

(** A couple that retires at 89 on the public pension alone, every amount
    of money non-negative: after two years the pessimistic run ends with
    more wealth than the optimistic run, because its public pension is
    indexed with the higher inflation. *)
Lemma pessimistic_above_optimistic :
  nonnegMonetary pensioners
  /\ (currentAge pensioners <= retirementAge pensioners)%Z
  /\ ScenarioResult.finalWealth (calculateProjections Services 2026 pensioners optimistic)
     < ScenarioResult.finalWealth (calculateProjections Services 2026 pensioners pessimistic)
  /\ ScenarioResult.finalWealth (calculateProjections Part000 2026 pensioners optimistic)
     < ScenarioResult.finalWealth (calculateProjections Part000 2026 pensioners pessimistic).
Proof.
  split; [unfold nonnegMonetary; repeat split; vm_compute; discriminate|].
  split; [vm_compute; discriminate|].
  split; vm_compute; reflexivity.
Qed.

(** ** A higher investment return *)

Lemma drawdown_unit (D u p : Q) :
  0 <= D -> 0 <= u -> p == D * u ->
  Math.min p D == D * Math.min u 1
  /\ Math.max 0 (p - Math.min p D) == D * Math.max 0 (u - 1).
Proof.
  intros HD Hu Hp. unfold Math.min, Math.max. qcases; split; nra.
Qed.

Lemma drawdown_step (Da Db u1 u2 pa pb ea eb : Q) :
  0 <= Da <= Db -> 0 <= u1 <= u2 -> pa == Da * u1 -> pb == Db * u2 ->
  0 <= ea <= eb ->
  Math.min pa Da <= Math.min pb Db
  /\ 0 <= Math.max 0 (pa - Math.min pa Da) * (1 + ea / 100 * 0.3)
     <= Math.max 0 (pb - Math.min pb Db) * (1 + eb / 100 * 0.3)
  /\ exists v1 v2,
       0 <= v1 <= v2
       /\ Math.max 0 (pa - Math.min pa Da) * (1 + ea / 100 * 0.3) == Da * v1
       /\ Math.max 0 (pb - Math.min pb Db) * (1 + eb / 100 * 0.3) == Db * v2.
Proof.
  intros [D0 D1] [U0 U1] Ha Hb [E0 E1].
  destruct (drawdown_unit Da u1 pa D0 U0 Ha) as [Xa Ra].
  destruct (drawdown_unit Db u2 pb ltac:(lra) ltac:(lra) Hb) as [Xb Rb].
  assert (M1 : 0 <= Math.min u1 1 <= Math.min u2 1)
    by (unfold Math.min; qcases; lra).
  assert (W1 : 0 <= Math.max 0 (u1 - 1) <= Math.max 0 (u2 - 1))
    by (unfold Math.max; qcases; lra).
  assert (V0 : 0 <= Math.max 0 (u1 - 1) * (1 + ea / 100 * 0.3)).
  { apply Qmult_le_0_compat; [lra|].
    assert (0 <= ea / 100 * 0.3) by (apply Qmult_le_0_compat; [qlin | lra]). lra. }
  assert (V1 : Math.max 0 (u1 - 1) * (1 + ea / 100 * 0.3)
               <= Math.max 0 (u2 - 1) * (1 + eb / 100 * 0.3))
    by (apply growth_mono; lra).
  assert (Qa : Math.max 0 (pa - Math.min pa Da) * (1 + ea / 100 * 0.3)
               == Da * (Math.max 0 (u1 - 1) * (1 + ea / 100 * 0.3)))
    by (rewrite Ra; ring).
  assert (Qb : Math.max 0 (pb - Math.min pb Db) * (1 + eb / 100 * 0.3)
               == Db * (Math.max 0 (u2 - 1) * (1 + eb / 100 * 0.3)))
    by (rewrite Rb; ring).
  split; [rewrite Xa, Xb; apply mul_mono; lra|].
  split.
  - rewrite Qa, Qb. split; [apply Qmult_le_0_compat; lra | apply mul_mono; lra].
  - exists (Math.max 0 (u1 - 1) * (1 + ea / 100 * 0.3)),
           (Math.max 0 (u2 - 1) * (1 + eb / 100 * 0.3)).
    split; [split; assumption|]. split; assumption.
Qed.

Lemma childrenLoop_setReturn (variant : Variant) (data : FinancialData) (r : Q)
      (ages : list Z) (expenses : Q) (active : Z) :
  childrenLoop variant (setInvestmentReturn data r) ages expenses active
  = childrenLoop variant data ages expenses active.
Proof.
  revert expenses active. induction ages as [|childAge rest IH]; intros expenses active.
  - reflexivity.
  - cbn [childrenLoop]. rewrite !IH. reflexivity.
Qed.

Ltac proj_data :=
  cbn [setInvestmentReturn currentAge retirementAge currentChildren futureChildren
       firstChildBirthYearOffset childSpacingYears annualGrossSalary1 annualGrossSalary2
       careerStage1 careerStage2 annualBonus expectedSalaryIncrease currentSavings
       monthlyContribution investmentReturn pillar2Balance1 pillar2Balance2
       pillar3Balance1 pillar3Balance2 pillar3AnnualContribution1
       pillar3AnnualContribution2 housingStatus currentHousingCost currentRooms
       housingCostIncrease monthlyLivingCost monthlyDaycareCost
       monthlySchoolActivityCost yearlyTravelBudget universitySupport canton
       luxuryLevel] in *.

Section HigherReturn.
Variable startYear : Z.
Variable data : FinancialData.
Variables r1 r2 : Q.
Hypothesis money : nonnegMonetary data.
Hypothesis higher : r1 <= r2.

Local Abbreviation d1 := (setInvestmentReturn data r1).
Local Abbreviation d2 := (setInvestmentReturn data r2).
Local Abbreviation e1 := (Math.max 0 (r1 + returnModPct (modifiers neutral))).
Local Abbreviation e2 := (Math.max 0 (r2 + returnModPct (modifiers neutral))).

Lemma returns_ordered : 0 <= e1 /\ e1 <= e2.
Proof. split; [apply max_l | apply max_mono; lra]. Qed.

Ltac open_states st1 st2 :=
  destruct st1 as [s1a s2a ba p2a p3a ca ia ahva lppa dda fa kidsa ptsa mxa depa renta mova];
  destruct st2 as [s1b s2b bb p2b p3b cb ib ahvb lppb ddb fb kidsb ptsb mxb depb rentb movb];
  unfold returnOrdered, sameEnvironment, bucketsOrdered, drawdownOrdered in *;
  proj_locals.

Lemma workingPhase_returnOrdered (age : Z) (X : Q) (ns1 ns2 : list string)
      (st1 st2 : Locals) :
  returnOrdered st1 st2 ->
  retirementSnapshotTaken st1 = false ->
  returnOrdered (fst (workingPhase Services d1 neutral age X ns1 st1))
                (fst (workingPhase Services d2 neutral age X ns2 st2)).
Proof.
  intros H F. destruct returns_ordered as [E0 E].
  open_states st1 st2.
  destruct H as ((S1 & S2 & B & P2 & L & T & CA & CR & HM)
                 & ((C0 & C1) & (I0 & I1) & (P0 & P1)) & DD).
  cbn [retirementSnapshotTaken grossSalary1 grossSalary2 grossBonus pillar2Wealth pillar3Wealth cashBuffer investedWealth lppAnnualPensionSnapshot pillar3AnnualDrawdownSnapshot childrenAges currentRent hasMovedHouse] in *.
  subst.
  unfold workingPhase, taxFactor, effectiveInvestmentReturnPct. proj_locals. proj_data.
  split; [repeat split; reflexivity|]. split; [|intro; discriminate].
  match goal with
  | |- context [workingLedger ca ia ?s] =>
      destruct (workingLedger_mono ca cb ia ib s s) as [L1 L2];
        [lra | lra | lra | lra | lra |];
      destruct (workingLedger_nonneg ca ia s) as [N1 N2]; [lra | lra |];
      pose proof (growth_mono1 _ _ _ _ N2 L2 E0 E) as G;
      assert (G0 : 0 <= snd (workingLedger ca ia s) * (1 + e1 / 100))
        by (apply Qmult_le_0_compat; [exact N2 | qlin])
  end.
  pose proof (growth_mono1 _ _ _ _ P0 P1 E0 E) as G3.
  assert (G30 : 0 <= p3a * (1 + e1 / 100))
    by (apply Qmult_le_0_compat; [exact P0 | qlin]).
  match goal with
  | |- context [p3a * _ + ?a] => assert (A : 0 <= a)
  end.
  { unfold nonnegMonetary in money. qcase; [lra | apply max_l]. }
  repeat split; lra.
Qed.

Lemma retirementPhase_returnOrdered (infl X : Q) (ns1 ns2 : list string)
      (st1 st2 : Locals) :
  returnOrdered st1 st2 ->
  returnOrdered (fst (retirementPhase Services d1 neutral infl X ns1 st1))
                (fst (retirementPhase Services d2 neutral infl X ns2 st2)).
Proof.
  intros H. destruct returns_ordered as [E0 E].
  open_states st1 st2.
  destruct H as ((S1 & S2 & B & P2 & L & T & CA & CR & HM)
                 & ((C0 & C1) & (I0 & I1) & (P0 & P1)) & DD).
  cbn [retirementSnapshotTaken grossSalary1 grossSalary2 grossBonus pillar2Wealth pillar3Wealth cashBuffer investedWealth lppAnnualPensionSnapshot pillar3AnnualDrawdownSnapshot childrenAges currentRent hasMovedHouse] in *.
  subst.
  unfold retirementPhase, effectiveInvestmentReturnPct. proj_locals. proj_data.
  remember (Math.max 1 (inject_Z (DEFAULT_MAX_AGE - retirementAge data))) as M eqn:HM.
  assert (M1 : 1 <= M) by (subst M; apply max_l).
  assert (K : 0 <= (if negb fb then p3a / M else dda) <= (if negb fb then p3b / M else ddb)
              /\ exists u1 u2, 0 <= u1 <= u2
                   /\ p3a == (if negb fb then p3a / M else dda) * u1
                   /\ p3b == (if negb fb then p3b / M else ddb) * u2).
  { destruct fb; cbn [negb]; [apply DD; reflexivity|]. split.
    - split; [apply Qle_shift_div_l; lra|].
      unfold Qdiv. apply Qmult_le_compat_r; [exact P1|].
      apply Qinv_le_0_compat. lra.
    - exists M, M. split; [lra|]. split; field; intro; lra. }
  set (Da := if negb fb then p3a / M else dda) in *.
  set (Db := if negb fb then p3b / M else ddb) in *.
  clearbody Da Db.
  destruct K as (DD' & u1 & u2 & UU & Ha & Hb).
  destruct (drawdown_step Da Db u1 u2 p3a p3b e1 e2 DD' UU Ha Hb (conj E0 E))
    as (X12 & Q12 & V).
  split; [repeat split; reflexivity|]. split; [|intros _; split; [exact DD' | exact V]].
  match goal with
  | |- context [retiredLedger ca ia ?sa] =>
      match goal with
      | |- context [retiredLedger cb ib ?sb] =>
          destruct (retiredLedger_mono ca cb ia ib sa sb) as [L1 L2];
            [lra | lra | lra | lra | lra |];
          destruct (retiredLedger_nonneg ca ia sa) as [N1 N2]; [lra | lra |];
          pose proof (growth_mono1 _ _ _ _ N2 L2 E0 E) as G;
          assert (G0 : 0 <= snd (retiredLedger ca ia sa) * (1 + e1 / 100))
            by (apply Qmult_le_0_compat; [exact N2 | qlin])
      end
  end.
  repeat split; lra.
Qed.

Lemma yearPass_setReturn (r : Q) (st : Locals) :
  yearPass Services (setInvestmentReturn data r) st = yearPass Services data st.
Proof. unfold yearPass. apply childrenLoop_setReturn. Qed.

Lemma moves_setReturn (r : Q) (st : Locals) :
  moves Services (setInvestmentReturn data r) st = moves Services data st.
Proof. unfold moves. rewrite yearPass_setReturn. reflexivity. Qed.

Lemma rentCharged_setReturn (r : Q) (st : Locals) :
  rentCharged Services (setInvestmentReturn data r) neutral st
  = rentCharged Services data neutral st.
Proof. unfold rentCharged. rewrite moves_setReturn. reflexivity. Qed.

Lemma yearExpenses_setReturn (r : Q) (age : Z) (st : Locals) :
  yearExpenses Services (setInvestmentReturn data r) neutral age st
  = yearExpenses Services data neutral age st.
Proof.
  unfold yearExpenses. rewrite rentCharged_setReturn, yearPass_setReturn. reflexivity.
Qed.

Lemma afterHousing_setReturn (r : Q) (st : Locals) :
  afterHousing Services (setInvestmentReturn data r) neutral st
  = afterHousing Services data neutral st.
Proof.
  unfold afterHousing.
  rewrite rentCharged_setReturn, yearPass_setReturn, moves_setReturn. reflexivity.
Qed.

(** What the year computes before the income branch depends on the
    children, the rent and the relocation flag only. *)
Lemma sameEnvironment_housing (age : Z) (st1 st2 : Locals) :
  sameEnvironment st1 st2 ->
  moves Services data st1 = moves Services data st2
  /\ yearExpenses Services data neutral age st1 = yearExpenses Services data neutral age st2.
Proof.
  intros (S1 & S2 & B & P2 & L & T & CA & CR & HM).
  assert (Y : yearPass Services data st1 = yearPass Services data st2)
    by (unfold yearPass; rewrite CA; reflexivity).
  assert (Mv : moves Services data st1 = moves Services data st2)
    by (unfold moves, relocates; rewrite Y, HM; reflexivity).
  split; [exact Mv|].
  unfold yearExpenses, rentCharged, inflatedRent. rewrite Y, Mv, CR. reflexivity.
Qed.

Lemma afterHousing_returnOrdered (st1 st2 : Locals) :
  returnOrdered st1 st2 ->
  returnOrdered (afterHousing Services data neutral st1)
                (afterHousing Services data neutral st2).
Proof.
  intros (Env & Ord & DD).
  destruct (sameEnvironment_housing 0 st1 st2 Env) as [Mv _].
  destruct Env as (S1 & S2 & B & P2 & L & T & CA & CR & HM).
  assert (Y : yearPass Services data st1 = yearPass Services data st2)
    by (unfold yearPass; rewrite CA; reflexivity).
  split; [|split; [exact Ord | exact DD]].
  unfold sameEnvironment, afterHousing. proj_locals.
  unfold rentCharged, inflatedRent. rewrite Y, Mv, CR, HM.
  repeat split; assumption.
Qed.

Lemma phase_returnOrdered (age : Z) (st1 st2 : Locals) :
  returnOrdered st1 st2 ->
  (retirementSnapshotTaken st1 = true -> (retirementAge data <= age)%Z) ->
  returnOrdered (fst (yearPhase Services d1 neutral age st1))
                (fst (yearPhase Services d2 neutral age st2)).
Proof.
  intros H Hflag.
  destruct (sameEnvironment_housing age st1 st2 (proj1 H)) as [Mv X].
  unfold yearPhase.
  rewrite !yearExpenses_setReturn, !afterHousing_setReturn, !moves_setReturn.
  change (retirementAge d1) with (retirementAge data).
  change (retirementAge d2) with (retirementAge data).
  change (inflationFactor d1 neutral age) with (inflationFactor data neutral age).
  change (inflationFactor d2 neutral age) with (inflationFactor data neutral age).
  rewrite X.
  destruct (retirementAge data <=? age)%Z eqn:R; cbn [negb].
  - apply retirementPhase_returnOrdered, afterHousing_returnOrdered, H.
  - apply workingPhase_returnOrdered; [apply afterHousing_returnOrdered, H|].
    change (retirementSnapshotTaken (afterHousing Services data neutral st1))
      with (retirementSnapshotTaken st1).
    destruct (retirementSnapshotTaken st1); [|reflexivity].
    specialize (Hflag eq_refl). lia.
Qed.

Lemma initial_returnOrdered : returnOrdered (initialLocals d1) (initialLocals d2).
Proof.
  unfold nonnegMonetary in money.
  unfold returnOrdered, sameEnvironment, bucketsOrdered, initialLocals.
  proj_locals. proj_data.
  split; [repeat split; reflexivity|]. split; [repeat split; lra | discriminate].
Qed.

Lemma after_returnOrdered (k : nat) :
  (k <= horizon data)%nat ->
  returnOrdered (localsAfter Services startYear d1 neutral k)
                (localsAfter Services startYear d2 neutral k).
Proof.
  induction k as [|k IH]; intro Hk.
  - apply initial_returnOrdered.
  - rewrite !localsAfter_S by (change (horizon d1) with (horizon data);
                               change (horizon d2) with (horizon data); lia).
    rewrite !body_unfold.
    change (ageAt d1 k) with (ageAt data k). change (ageAt d2 k) with (ageAt data k).
    apply (phase_returnOrdered (ageAt data k)); [apply IH; lia|].
    intro T.
    apply (snapshotTaken_after Services startYear d1 neutral k) in T;
      [|change (horizon d1) with (horizon data); lia].
    change (retirementAge d1) with (retirementAge data) in T.
    change (ageAt d1 k) with (ageAt data k) in T. lia.
Qed.

Lemma yearWealth_returnOrdered (age : Z) (st1 st2 : Locals) :
  returnOrdered st1 st2 ->
  (retirementSnapshotTaken st1 = true -> (retirementAge data <= age)%Z) ->
  yearWealth Services d1 neutral age st1 <= yearWealth Services d2 neutral age st2.
Proof.
  intros H Hflag.
  destruct (phase_returnOrdered age st1 st2 H Hflag)
    as ((_ & _ & _ & P2 & _) & (C & I & P3) & _).
  unfold yearWealth. cbv zeta. rewrite P2. lra.
Qed.

End HigherReturn.

(** C2 (as the code has it).  For every profile with non-negative amounts
    of money whose canton finds a number in the tax table, and every pair
    of baseline investment returns [r1 <= r2], all other fields being the
    same, the final wealth of the neutral run at [r2] is at least the
    final wealth of the neutral run at [r1]. *)
Theorem final_wealth_monotone_in_return
        (startYear : Z) (data : FinancialData) (r1 r2 : Q) :
  nonnegMonetary data ->
  taxFactorIsNumber data = true ->
  r1 <= r2 ->
  ScenarioResult.finalWealth
    (calculateProjections Services startYear (setInvestmentReturn data r1) neutral)
  <= ScenarioResult.finalWealth
       (calculateProjections Services startYear (setInvestmentReturn data r2) neutral).
Proof.
  intros M _ H.
  destruct (horizon data) as [|n] eqn:Hn.
  - rewrite !finalWealth_empty by exact Hn. lra.
  - rewrite !(finalWealth_last Services startYear _ neutral n) by exact Hn.
    change (ageAt (setInvestmentReturn data r1) n) with (ageAt data n).
    change (ageAt (setInvestmentReturn data r2) n) with (ageAt data n).
    apply (yearWealth_returnOrdered data r1 r2 M H).
    + apply (after_returnOrdered startYear data r1 r2 M H). lia.
    + intro T.
      apply (snapshotTaken_after Services startYear (setInvestmentReturn data r1) neutral n)
        in T; [|change (horizon (setInvestmentReturn data r1)) with (horizon data); lia].
      change (retirementAge (setInvestmentReturn data r1)) with (retirementAge data) in T.
      change (ageAt (setInvestmentReturn data r1) n) with (ageAt data n) in T. lia.
Qed.

Lemma final_wealth_monotone_in_return_witness :
  ScenarioResult.finalWealth
    (calculateProjections Services 2026 (setInvestmentReturn lateCareer 2) neutral)
  <= ScenarioResult.finalWealth
       (calculateProjections Services 2026 (setInvestmentReturn lateCareer 6) neutral).
Proof.
  apply (final_wealth_monotone_in_return 2026 lateCareer 2 6).
  - unfold nonnegMonetary. repeat split; vm_compute; discriminate.
  - vm_compute. reflexivity.
  - vm_compute. discriminate.
Defined.

(** Without the condition on the amounts of money: a retired household of
    90 that owes 1000 ends its one simulated year with 36485 at a return
    of 0 percent and with 36415 at a return of 10 percent, in both
    copies.  The debt sits in the invested wealth, which the return
    multiplies. *)
Lemma final_wealth_falls_with_return_on_debt :
  0 <= 10
  /\ ScenarioResult.finalWealth
       (calculateProjections Services 2026 (setInvestmentReturn debtors 0) neutral)
     == 36485
  /\ ScenarioResult.finalWealth
       (calculateProjections Services 2026 (setInvestmentReturn debtors 10) neutral)
     == 36415
  /\ ScenarioResult.finalWealth
       (calculateProjections Services 2026 (setInvestmentReturn debtors 10) neutral)
     < ScenarioResult.finalWealth
         (calculateProjections Services 2026 (setInvestmentReturn debtors 0) neutral)
  /\ ScenarioResult.finalWealth
       (calculateProjections Part000 2026 (setInvestmentReturn debtors 10) neutral)
     < ScenarioResult.finalWealth
         (calculateProjections Part000 2026 (setInvestmentReturn debtors 0) neutral).
Proof.
  repeat split; vm_compute; reflexivity || discriminate.
Qed.

(** ** The profile object is left as it was *)

Section StoreFacts.
Variable variant : Variant.
Variable startYear : Z.

Lemma put_length {A : Type} (l : list A) (i : nat) (x : A) :
  List.length (Store.put l i x) = List.length l.
Proof.
  revert i. induction l as [|y l IH]; intros [|i]; cbn; try reflexivity.
  rewrite IH. reflexivity.
Qed.

Lemma nth_put_same {A : Type} (l : list A) (i : nat) (x : A) :
  (i < List.length l)%nat -> nth_error (Store.put l i x) i = Some x.
Proof.
  revert i. induction l as [|y l IH]; intros [|i] H; cbn in *;
    try lia; [reflexivity | apply IH; lia].
Qed.

Lemma nth_put_other {A : Type} (l : list A) (i j : nat) (x : A) :
  i <> j -> nth_error (Store.put l i x) j = nth_error l j.
Proof.
  revert i j. induction l as [|y l IH]; intros [|i] [|j] H; cbn;
    try reflexivity; [contradiction | apply IH; congruence].
Qed.

Lemma put_middle {A : Type} (pre post : list A) (y x : A) :
  Store.put (pre ++ y :: post) (List.length pre) x = pre ++ x :: post.
Proof.
  induction pre as [|z pre IH]; cbn; [reflexivity|]. rewrite IH. reflexivity.
Qed.

Lemma get_alloc_new (s : Store.t) (o : Store.Object) :
  Store.get (snd (Store.alloc s o)) (fst (Store.alloc s o)) = Some o.
Proof.
  unfold Store.alloc, Store.get. cbn [fst snd].
  rewrite nth_error_app2 by lia. rewrite Nat.sub_diag. reflexivity.
Qed.

Lemma get_in_range (s : Store.t) (r : Store.Ref) (o : Store.Object) :
  Store.get s r = Some o -> (r < List.length s)%nat.
Proof. unfold Store.get. intro H. apply nth_error_Some. congruence. Qed.

Lemma extends_refl (s : Store.t) : Store.extends s s.
Proof. intros r o H. exact H. Qed.

Lemma extends_trans (s1 s2 s3 : Store.t) :
  Store.extends s1 s2 -> Store.extends s2 s3 -> Store.extends s1 s3.
Proof. intros H12 H23 r o H. apply H23, H12, H. Qed.

Lemma extends_alloc (s : Store.t) (o : Store.Object) :
  Store.extends s (snd (Store.alloc s o)).
Proof.
  intros r x H. unfold Store.alloc, Store.get in *. cbn [snd].
  rewrite nth_error_app1; [exact H|]. apply nth_error_Some. congruence.
Qed.

Lemma extends_read (s s' : Store.t) (r : Store.Ref) (d : FinancialData) :
  Store.extends s s' -> Store.read s r = Some d -> Store.read s' r = Some d.
Proof.
  intros E H. unfold Store.read in *.
  destruct (Store.get s r) as [[x|a]|] eqn:G; try discriminate.
  rewrite (E r _ G). exact H.
Qed.

(** An assignment to an element of the array behind [a] changes the
    object behind [a] and no other. *)
Lemma setIndex_frame (s s1 : Store.t) (a : Store.Ref) (i : nat) (v : Z) :
  Store.setIndex s a i v = Some s1 ->
  List.length s1 = List.length s
  /\ forall r, r <> a -> Store.get s1 r = Store.get s r.
Proof.
  unfold Store.setIndex. destruct (Store.numbers s a) as [l|]; [|discriminate].
  destruct (i <? List.length l)%nat; [|discriminate].
  intro E. injection E as <-. split.
  - apply put_length.
  - intros r H. unfold Store.get. apply nth_put_other. congruence.
Qed.

(** The inner loop on the array does what [childrenLoop] does on the
    array's content: from slot [length pre] on it returns the expenses and
    the count of [childrenLoop] on the slots left, leaves their new ages in
    the array, and touches no other object. *)
Lemma childrenLoopOn_spec (r a : Store.Ref) (d : FinancialData) (post : list Z) :
  forall (pre : list Z) (expenses : Q) (active : Z) (s : Store.t) (fuel : nat),
    Store.read s r = Some d ->
    Store.numbers s a = Some (pre ++ post) ->
    (List.length post <= fuel)%nat ->
    exists s',
      childrenLoopOn variant r a fuel (List.length pre) expenses active s
      = Some (annualChildrenExpenses (childrenLoop variant d post expenses active),
              activeChildrenCount (childrenLoop variant d post expenses active), s')
      /\ Store.numbers s' a
         = Some (pre ++ agedChildren (childrenLoop variant d post expenses active))
      /\ List.length s' = List.length s
      /\ forall r', r' <> a -> Store.get s' r' = Store.get s r'.
Proof.
  induction post as [|childAge rest IH]; intros pre expenses active s fuel Hr Ha Hf.
  - exists s. cbn [childrenLoop agedChildren annualChildrenExpenses activeChildrenCount].
    split; [|auto].
    destruct fuel as [|fuel]; [reflexivity|]. cbn [childrenLoopOn].
    unfold Store.arrayLength. rewrite Ha. cbn [option_map].
    rewrite app_nil_r, Nat.ltb_irrefl. reflexivity.
  - destruct fuel as [|fuel]; [cbn in Hf; lia|].
    assert (Hne : r <> a).
    { intro E. subst a. unfold Store.read, Store.numbers in *.
      destruct (Store.get s r) as [[x|l]|]; discriminate. }
    assert (Hset : Store.setIndex s a (List.length pre) (childAge + 1)%Z
                   = Some (Store.put s a (Store.Numbers (pre ++ (childAge + 1)%Z :: rest)))).
    { unfold Store.setIndex. rewrite Ha.
      assert (L : (List.length pre <? List.length (pre ++ childAge :: rest))%nat = true)
        by (apply Nat.ltb_lt; rewrite length_app; cbn; lia).
      rewrite L, put_middle. reflexivity. }
    pose proof (setIndex_frame _ _ _ _ _ Hset) as (Hlen & Hoth).
    set (s1 := Store.put s a (Store.Numbers (pre ++ (childAge + 1)%Z :: rest))) in *.
    assert (Hr1 : Store.read s1 r = Some d).
    { unfold Store.read in *. rewrite Hoth by exact Hne. exact Hr. }
    assert (Ha1 : Store.numbers s1 a = Some ((pre ++ [(childAge + 1)%Z]) ++ rest)).
    { unfold Store.numbers, Store.get, s1.
      rewrite nth_put_same.
      - rewrite <- app_assoc. reflexivity.
      - unfold Store.numbers in Ha.
        destruct (Store.get s a) as [o|] eqn:G; [|discriminate].
        exact (get_in_range _ _ _ G). }
    assert (Hlen1 : List.length (pre ++ [(childAge + 1)%Z]) = S (List.length pre))
      by (rewrite length_app; cbn; lia).
    cbn [childrenLoopOn]. unfold Store.arrayLength, Store.getIndex.
    rewrite Ha, Hr. cbn [option_map].
    assert (L : (List.length pre <? List.length (pre ++ childAge :: rest))%nat = true)
      by (apply Nat.ltb_lt; rewrite length_app; cbn; lia).
    rewrite L.
    rewrite nth_error_app2 by lia. rewrite Nat.sub_diag. cbn [nth_error].
    cbn [childrenLoop]. rewrite Hset.
    destruct (childAge <? 0)%Z.
    + destruct (IH (pre ++ [(childAge + 1)%Z]) expenses active s1 fuel Hr1 Ha1
                   ltac:(cbn in Hf; lia))
        as (s' & E & A & Len & Oth).
      rewrite Hlen1 in E. exists s'.
      cbn [annualChildrenExpenses activeChildrenCount agedChildren].
      split; [exact E|]. split; [rewrite A, <- app_assoc; reflexivity|].
      split; [congruence|].
      intros r' H. rewrite Oth by exact H. apply Hoth, H.
    + cbv zeta.
      match goal with
      | |- context [childrenLoop variant d rest ?e ?n] =>
          destruct (IH (pre ++ [(childAge + 1)%Z]) e n s1 fuel Hr1 Ha1
                       ltac:(cbn in Hf; lia))
            as (s' & E & A & Len & Oth)
      end.
      rewrite Hlen1 in E. exists s'.
      cbn [annualChildrenExpenses activeChildrenCount agedChildren].
      split; [exact E|]. split; [rewrite A, <- app_assoc; reflexivity|].
      split; [congruence|].
      intros r' H. rewrite Oth by exact H. apply Hoth, H.
Qed.

(** One iteration on the store computes what [body] computes from the
    profile's value, keeps the array in step with the locals and touches
    no other object. *)
Lemma bodyOn_spec (scenario : ScenarioType) (r a : Store.Ref) (d : FinancialData)
      (age : Z) (st : Locals) (s : Store.t) :
  Store.read s r = Some d ->
  Store.numbers s a = Some (childrenAges st) ->
  exists s',
    bodyOn variant startYear scenario r a age st s
    = Some (body variant startYear d scenario age st, s')
    /\ Store.read s' r = Some d
    /\ Store.numbers s' a
       = Some (childrenAges (body variant startYear d scenario age st))
    /\ List.length s' = List.length s
    /\ forall r', r' <> a -> Store.get s' r' = Store.get s r'.
Proof.
  intros Hr Ha.
  assert (Hne : r <> a).
  { intro E. subst a. unfold Store.read, Store.numbers in *.
    destruct (Store.get s r) as [[x|l]|]; discriminate. }
  destruct (childrenLoopOn_spec r a d (childrenAges st) [] 0 0 s
              (List.length (childrenAges st)) Hr Ha ltac:(lia))
    as (s' & E & A & Len & Oth).
  cbn [List.length app] in E, A.
  assert (Hr' : Store.read s' r = Some d).
  { unfold Store.read in *. rewrite Oth by exact Hne. exact Hr. }
  exists s'. unfold bodyOn, Store.arrayLength. rewrite Ha. cbn [option_map].
  rewrite E, Hr', A. unfold body.
  destruct (childrenLoop variant d (childrenAges st) 0 0) as [ages e c] eqn:P.
  cbn [agedChildren annualChildrenExpenses activeChildrenCount].
  split; [reflexivity|]. split; [reflexivity|]. split; [|auto].
  pose proof (body_childrenAges variant startYear d scenario age st) as B.
  unfold body, yearPass in B. rewrite P in B. cbn [agedChildren] in B.
  rewrite B. reflexivity.
Qed.

Lemma forLoopOn_spec (scenario : ScenarioType) (r a : Store.Ref) (d : FinancialData)
      (fuel : nat) :
  forall (age : Z) (st : Locals) (s : Store.t),
    Store.read s r = Some d ->
    Store.numbers s a = Some (childrenAges st) ->
    exists s',
      forLoopOn variant startYear scenario r a fuel age st s
      = Some (forLoop variant startYear d scenario fuel age st, s')
      /\ List.length s' = List.length s
      /\ forall r', r' <> a -> Store.get s' r' = Store.get s r'.
Proof.
  induction fuel as [|fuel IH]; intros age st s Hr Ha.
  - exists s. auto.
  - cbn [forLoopOn forLoop].
    destruct (age <=? DEFAULT_MAX_AGE)%Z; [|exists s; auto].
    destruct (bodyOn_spec scenario r a d age st s Hr Ha)
      as (s1 & E & Hr1 & Ha1 & Len1 & Oth1).
    rewrite E.
    destruct (IH (age + 1)%Z _ s1 Hr1 Ha1) as (s' & E' & Len & Oth).
    exists s'. split; [exact E'|]. split; [congruence|].
    intros r' H. rewrite Oth by exact H. apply Oth1, H.
Qed.

(** A run through the reference returns what [calculateProjections]
    computes from the profile's value; the store it leaves has one more
    object, the array of the run, and every earlier object as it was. *)
Lemma calculateProjectionsOn_spec (r : Store.Ref) (scenario : ScenarioType)
      (s : Store.t) (d : FinancialData) :
  Store.read s r = Some d ->
  exists s',
    calculateProjectionsOn variant startYear r scenario s
    = Some (calculateProjections variant startYear d scenario, s')
    /\ Store.extends s s'.
Proof.
  intro H. unfold calculateProjectionsOn, computeChildrenScheduleOn. rewrite H.
  pose proof (extends_alloc s (Store.Numbers (computeChildrenSchedule d))) as X.
  pose proof (get_alloc_new s (Store.Numbers (computeChildrenSchedule d))) as N.
  unfold Store.alloc in *. cbn [fst snd] in *.
  destruct (forLoopOn_spec scenario r (List.length s) d (horizon d) (currentAge d)
              (initialLocals d) (s ++ [Store.Numbers (computeChildrenSchedule d)]))
    as (s' & E & Len & Oth).
  - apply (extends_read _ _ _ _ X H).
  - unfold Store.numbers. rewrite N. reflexivity.
  - exists s'. rewrite E. split; [reflexivity|].
    intros r' o G. rewrite Oth.
    + apply X, G.
    + apply get_in_range in G. lia.
Qed.

Lemma runOnClone_spec (r : Store.Ref) (scenario : ScenarioType)
      (s : Store.t) (d : FinancialData) :
  Store.read s r = Some d ->
  exists s',
    runOnClone variant startYear r scenario s
    = Some (calculateProjections variant startYear (clone d) scenario, s')
    /\ Store.extends s s'.
Proof.
  intro H. unfold runOnClone, cloneOn. rewrite H.
  pose proof (extends_alloc s (Store.Profile (clone d))) as X.
  pose proof (get_alloc_new s (Store.Profile (clone d))) as N.
  unfold Store.alloc in *. cbn [fst snd] in *.
  destruct (calculateProjectionsOn_spec (List.length s) scenario
              (s ++ [Store.Profile (clone d)]) (clone d))
    as (s' & E & Ext).
  - unfold Store.read. rewrite N. reflexivity.
  - exists s'. split; [exact E | exact (extends_trans _ _ _ X Ext)].
Qed.

Lemma runSequenceOn_spec (r : Store.Ref) (scenarios : list ScenarioType)
      (d : FinancialData) :
  forall s : Store.t,
    Store.read s r = Some d ->
    exists s',
      runSequenceOn variant startYear r scenarios s
      = Some (map (calculateProjections variant startYear d) scenarios, s')
      /\ Store.extends s s'.
Proof.
  induction scenarios as [|scenario rest IH]; intros s H.
  - exists s. split; [reflexivity | apply extends_refl].
  - cbn [runSequenceOn map].
    destruct (calculateProjectionsOn_spec r scenario s d H) as (s1 & E1 & X1).
    rewrite E1.
    destruct (IH s1 (extends_read _ _ _ _ X1 H)) as (s2 & E2 & X2).
    rewrite E2. exists s2. split; [reflexivity | exact (extends_trans _ _ _ X1 X2)].
Qed.

Lemma runAllScenariosOn_spec (r : Store.Ref) (s : Store.t) (d : FinancialData) :
  Store.read s r = Some d ->
  exists s',
    runAllScenariosOn variant startYear r s
    = Some (runAllScenarios variant startYear d, s')
    /\ Store.extends s s'.
Proof.
  intro H. unfold runAllScenariosOn.
  destruct (runOnClone_spec r pessimistic s d H) as (s1 & E1 & X1). rewrite E1.
  destruct (runOnClone_spec r neutral s1 d (extends_read _ _ _ _ X1 H))
    as (s2 & E2 & X2).
  rewrite E2.
  destruct (runOnClone_spec r optimistic s2 d
              (extends_read _ _ _ _ (extends_trans _ _ _ X1 X2) H))
    as (s3 & E3 & X3).
  rewrite E3. exists s3. split; [reflexivity|].
  exact (extends_trans _ _ _ X1 (extends_trans _ _ _ X2 X3)).
Qed.

End StoreFacts.

(** C10.  [calculateProjections] leaves the profile object it is given as
    it found it, and with it every object that was there before the run:
    a run through the reference returns what the function computes from
    the profile's value, and the assignments it makes go to the array of
    the children's ages, which it has allocated itself.  Hence runs one
    after the other on the same object, in any order and with
    repetitions, each return the result of their scenario on the original
    profile; and [runAllScenarios], which runs on clones, returns the
    three results and changes no existing object either. *)
Theorem profile_never_mutated
        (variant : Variant) (startYear : Z) (s : Store.t) (r : Store.Ref)
        (d : FinancialData) :
  Store.read s r = Some d ->
  (forall scenario,
      exists s',
        calculateProjectionsOn variant startYear r scenario s
        = Some (calculateProjections variant startYear d scenario, s')
        /\ Store.extends s s'
        /\ Store.read s' r = Some d)
  /\ (forall scenarios,
         exists s',
           runSequenceOn variant startYear r scenarios s
           = Some (map (calculateProjections variant startYear d) scenarios, s')
           /\ Store.extends s s'
           /\ Store.read s' r = Some d)
  /\ (exists s',
         runAllScenariosOn variant startYear r s
         = Some (runAllScenarios variant startYear d, s')
         /\ Store.extends s s'
         /\ Store.read s' r = Some d).
Proof.
  intro H. split; [|split].
  - intro scenario.
    destruct (calculateProjectionsOn_spec variant startYear r scenario s d H)
      as (s' & E & X).
    exists s'. split; [exact E|]. split; [exact X | exact (extends_read _ _ _ _ X H)].
  - intro scenarios.
    destruct (runSequenceOn_spec variant startYear r scenarios d s H) as (s' & E & X).
    exists s'. split; [exact E|]. split; [exact X | exact (extends_read _ _ _ _ X H)].
  - destruct (runAllScenariosOn_spec variant startYear r s d H) as (s' & E & X).
    exists s'. split; [exact E|]. split; [exact X | exact (extends_read _ _ _ _ X H)].
Qed.

Lemma profile_never_mutated_witness :
  exists s',
    calculateProjectionsOn Services 2026 0%nat neutral [Store.Profile lateCareer]
    = Some (calculateProjections Services 2026 lateCareer neutral, s')
    /\ Store.extends [Store.Profile lateCareer] s'
    /\ Store.read s' 0%nat = Some lateCareer.
Proof.
  destruct (profile_never_mutated Services 2026 [Store.Profile lateCareer] 0%nat
              lateCareer eq_refl) as [H _].
  exact (H neutral).
Defined.

(** * Further properties of the engine *)

(** ** Tax factor, schedule, salary growth, scenario table *)

(** What the lookup of the tax factor gives, canton by canton: a number
    between 0.70 and 0.82, or, only for a canton named like a property
    inherited from [Object.prototype], the inherited value instead of a
    number.  Every such name gets the inherited value; a canton that is
    neither a key of the table nor such a name gets the default 0.75, and
    so does the empty string. *)
Theorem tax_factor_range_and_default (canton : string) :
  match getTaxFactor canton with
  | Number t => 0.70 <= t <= 0.82
  | Inherited => In canton objectPrototypeKeys
  end
  /\ (In canton objectPrototypeKeys -> getTaxFactor canton = Inherited)
  /\ (lookup canton taxFactorByCanton = None ->
      ~ In canton objectPrototypeKeys ->
      getTaxFactor canton = Number 0.75)
  /\ getTaxFactor "" = Number 0.75.
Proof.
  split; [|split; [|split; [|reflexivity]]].
  - destruct (getTaxFactor canton) as [t|] eqn:E.
    + exact (getTaxFactor_bounds canton t E).
    + unfold getTaxFactor in E.
      destruct (String.eqb canton ""); [discriminate|].
      destruct (lookup canton taxFactorByCanton); [discriminate|].
      destruct (existsb (String.eqb canton) objectPrototypeKeys) eqn:X; [|discriminate].
      apply existsb_exists in X. destruct X as (k & Hk & Ek).
      apply String.eqb_eq in Ek. subst k. exact Hk.
  - intro H. cbn in H.
    repeat (destruct H as [<-|H]; [reflexivity|]). destruct H.
  - intros L NI. unfold getTaxFactor. rewrite L.
    destruct (String.eqb canton ""); [reflexivity|].
    destruct (existsb (String.eqb canton) objectPrototypeKeys) eqn:X; [|reflexivity].
    exfalso. apply NI.
    apply existsb_exists in X. destruct X as (k & Hk & Ek).
    apply String.eqb_eq in Ek. subst k. exact Hk.
Qed.

Lemma nth_error_map_seq {A : Type} (f : nat -> A) (n k : nat) :
  (k < n)%nat -> nth_error (map f (seq 0 n)) k = Some (f k).
Proof.
  intro H. rewrite nth_error_map, nth_error_seq.
  destruct (Nat.ltb_spec k n); [reflexivity | lia].
Qed.

(** The schedule has one slot per current and per future child, and the
    slots of the children already born hold 2, 4, 6, ..., whatever the
    profile; the slot of the j-th future child holds the negated sum of
    the first-birth offset and j times the spacing, so that when the
    first birth lies at least a year ahead and the spacing is not
    negative, every future child starts with a negative age. *)
Theorem children_schedule_slots (data : FinancialData) :
  List.length (computeChildrenSchedule data)
  = (Z.to_nat (currentChildren data) + Z.to_nat (futureChildren data))%nat
  /\ (forall i, (i < Z.to_nat (currentChildren data))%nat ->
        nth_error (computeChildrenSchedule data) i = Some (2 + 2 * Z.of_nat i)%Z)
  /\ (forall j, (j < Z.to_nat (futureChildren data))%nat ->
        nth_error (computeChildrenSchedule data) (Z.to_nat (currentChildren data) + j)
        = Some (- (orElse (firstChildBirthYearOffset data) 1
                   + Z.of_nat j * orElse (childSpacingYears data) 2))%Z)
  /\ ((1 <= orElse (firstChildBirthYearOffset data) 1)%Z ->
      (0 <= orElse (childSpacingYears data) 2)%Z ->
      forall j, (j < Z.to_nat (futureChildren data))%nat ->
        exists a,
          nth_error (computeChildrenSchedule data) (Z.to_nat (currentChildren data) + j)
          = Some a /\ (a < 0)%Z).
Proof.
  assert (F : forall j, (j < Z.to_nat (futureChildren data))%nat ->
        nth_error (computeChildrenSchedule data) (Z.to_nat (currentChildren data) + j)
        = Some (- (orElse (firstChildBirthYearOffset data) 1
                   + Z.of_nat j * orElse (childSpacingYears data) 2))%Z).
  { intros j Hj. unfold computeChildrenSchedule.
    rewrite nth_error_app2 by (rewrite length_map, length_seq; lia).
    rewrite length_map, length_seq.
    replace (Z.to_nat (currentChildren data) + j - Z.to_nat (currentChildren data))%nat
      with j by lia.
    rewrite nth_error_map_seq by exact Hj. reflexivity. }
  split; [|split; [|split]].
  - unfold computeChildrenSchedule.
    rewrite length_app, !length_map, !length_seq. reflexivity.
  - intros i Hi. unfold computeChildrenSchedule.
    rewrite nth_error_app1 by (rewrite length_map, length_seq; exact Hi).
    rewrite nth_error_map_seq by exact Hi. f_equal. lia.
  - exact F.
  - intros Hoff Hsp j Hj. eexists. split; [apply F, Hj|]. nia.
Qed.

(** The yearly salary growth is never below the base inflation and never
    more than 3.5 points above it; from age 55 on it is the base inflation,
    and between 45 and 54 one point above it, whatever the career stage. *)
Theorem salary_growth_bands (age : Z) (stage : CareerStage) (baseInflation : Q) :
  baseInflation <= getSalaryGrowthRate age stage baseInflation <= baseInflation + 0.035
  /\ ((55 <= age)%Z -> getSalaryGrowthRate age stage baseInflation == baseInflation)
  /\ ((45 <= age < 55)%Z ->
      getSalaryGrowthRate age stage baseInflation == baseInflation + 0.01).
Proof.
  unfold getSalaryGrowthRate.
  destruct (Z.ltb_spec age 35); [|destruct (Z.ltb_spec age 45); [|destruct (Z.ltb_spec age 55)]];
    (split; [destruct stage; lra|]); (split; intro; try lia; lra).
Qed.

(** The effective investment return is never negative, whatever the
    baseline, and the scenarios order it: pessimistic, neutral, optimistic.
    The base inflation is ordered the other way round. *)
Theorem scenario_rates_ordered (data : FinancialData) :
  0 <= effectiveInvestmentReturnPct data pessimistic
  /\ effectiveInvestmentReturnPct data pessimistic
     <= effectiveInvestmentReturnPct data neutral
  /\ effectiveInvestmentReturnPct data neutral
     <= effectiveInvestmentReturnPct data optimistic
  /\ baseInflationPct data optimistic < baseInflationPct data neutral
  /\ baseInflationPct data neutral < baseInflationPct data pessimistic.
Proof.
  unfold effectiveInvestmentReturnPct, baseInflationPct.
  cbn [modifiers modifiersOf returnModPct inflationModPct].
  split; [apply max_l|].
  split; [apply max_mono; lra|]. split; [apply max_mono; lra|]. split; lra.
Qed.

(** ** The shape of a result *)

(** A run yields one snapshot per age from the current age to 90, in this
    order, with consecutive calendar years from the start year; a profile
    older than 90 yields no snapshot, a final and a peak wealth of 0, no
    depletion age, and is reported viable. *)
Theorem projection_shape
        (variant : Variant) (startYear : Z) (data : FinancialData)
        (scenario : ScenarioType) :
  List.length (ScenarioResult.data (calculateProjections variant startYear data scenario))
  = Z.to_nat (91 - currentAge data)
  /\ (forall k pt,
        nth_error (ScenarioResult.data
                     (calculateProjections variant startYear data scenario)) k = Some pt ->
        ProjectionPoint.age pt = (currentAge data + Z.of_nat k)%Z
        /\ ProjectionPoint.year pt = (startYear + Z.of_nat k)%Z)
  /\ ((90 < currentAge data)%Z ->
      calculateProjections variant startYear data scenario
      = ScenarioResult.mk scenario scenario [] 0 0 true None).
Proof.
  split; [|split].
  - rewrite data_length. unfold horizon, DEFAULT_MAX_AGE. f_equal.
  - intros k pt H.
    assert (L : (k < horizon data)%nat).
    { rewrite <- (data_length variant startYear data scenario).
      apply nth_error_Some. congruence. }
    rewrite data_nth in H by exact L. injection H as <-.
    cbn [yearPoint ProjectionPoint.age ProjectionPoint.year]. unfold ageAt.
    split; [reflexivity | f_equal; lia].
  - intro H. unfold calculateProjections, finalLocals.
    assert (E : horizon data = 0%nat) by (unfold horizon, DEFAULT_MAX_AGE; lia).
    rewrite E. unfold localsAfter. cbn [forLoop]. unfold resultOf.
    cbn [initialLocals points maxWealth savingsDepletedAge lastTotalWealth].
    destruct variant; reflexivity.
Qed.

(** ** Peak wealth *)

Section Peak.
Variable variant : Variant.
Variable startYear : Z.
Variable data : FinancialData.
Variable scenario : ScenarioType.

Local Abbreviation after' := (localsAfter variant startYear data scenario).


End Peak.


(** ** Children over the years *)

Lemma childrenLoop_ages (variant : Variant) (data : FinancialData)
      (ages : list Z) (expenses : Q) (active : Z) :
  agedChildren (childrenLoop variant data ages expenses active)
  = map (fun a => a + 1)%Z ages
  /\ activeChildrenCount (childrenLoop variant data ages expenses active)
     = (active
        + Z.of_nat (List.length
                      (filter (fun a => (0 <=? a)%Z && (a <? 25)%Z) ages)))%Z.
Proof.
  revert expenses active. induction ages as [|a rest IH]; intros expenses active.
  - cbn. split; [reflexivity | lia].
  - cbn [childrenLoop map filter].
    destruct (Z.ltb_spec a 0).
    + cbn [agedChildren activeChildrenCount].
      destruct (IH expenses active) as [-> ->].
      destruct (Z.leb_spec 0 a); [lia|]. cbn [andb]. split; reflexivity.
    + cbn [agedChildren activeChildrenCount].
      destruct (Z.leb_spec 0 a); [|lia]. cbn [andb].
      destruct (a <? 25)%Z.
      * match goal with
        | |- context [childrenLoop variant data rest ?e ?n] =>
            destruct (IH e n) as [-> ->]
        end.
        cbn [List.length]. split; [reflexivity | lia].
      * match goal with
        | |- context [childrenLoop variant data rest ?e ?n] =>
            destruct (IH e n) as [-> ->]
        end.
        split; [reflexivity | lia].
Qed.

Lemma childrenAges_after (variant : Variant) (startYear : Z) (data : FinancialData)
      (scenario : ScenarioType) (k : nat) :
  (k <= horizon data)%nat ->
  childrenAges (localsAfter variant startYear data scenario k)
  = map (fun a => a + Z.of_nat k)%Z (computeChildrenSchedule data).
Proof.
  induction k as [|k IH]; intro Hk.
  - cbn [localsAfter forLoop initialLocals childrenAges].
    rewrite <- (map_id (computeChildrenSchedule data)) at 1.
    apply map_ext. intro a. cbn. lia.
  - rewrite localsAfter_S by lia. rewrite body_childrenAges. unfold yearPass.
    destruct (childrenLoop_ages variant data
                (childrenAges (localsAfter variant startYear data scenario k)) 0 0)
      as [-> _].
    rewrite IH by lia. rewrite map_map. apply map_ext. intro a. lia.
Qed.

(** Every child slot ages by exactly one year per simulated year: the
    number of active children reported in simulation year [k] is the number
    of slots of the schedule whose age plus [k] lies in [0, 25); it is
    never negative and never more than the number of children. *)
Theorem active_children_by_year
        (variant : Variant) (startYear : Z) (data : FinancialData)
        (scenario : ScenarioType) (k : nat) (pt : ProjectionPoint.t) :
  nth_error (ScenarioResult.data (calculateProjections variant startYear data scenario)) k
  = Some pt ->
  ProjectionPoint.activeChildren pt
  = Z.of_nat (List.length
                (filter (fun a => (0 <=? a + Z.of_nat k)%Z && (a + Z.of_nat k <? 25)%Z)
                        (computeChildrenSchedule data)))
  /\ (0 <= ProjectionPoint.activeChildren pt
      <= Z.of_nat (List.length (computeChildrenSchedule data)))%Z.
Proof.
  intro H.
  assert (L : (k < horizon data)%nat).
  { rewrite <- (data_length variant startYear data scenario).
    apply nth_error_Some. congruence. }
  rewrite data_nth in H by exact L. injection H as <-.
  cbn [yearPoint ProjectionPoint.activeChildren]. unfold yearPass.
  destruct (childrenLoop_ages variant data
              (childrenAges (localsAfter variant startYear data scenario k)) 0 0)
    as [_ ->].
  rewrite childrenAges_after by lia.
  assert (F : forall l : list Z,
            List.length (filter (fun a => (0 <=? a)%Z && (a <? 25)%Z)
                                (map (fun a => a + Z.of_nat k)%Z l))
            = List.length (filter (fun a => (0 <=? a + Z.of_nat k)%Z
                                            && (a + Z.of_nat k <? 25)%Z) l)).
  { induction l as [|a l IHl]; [reflexivity|]. cbn [map filter].
    destruct ((0 <=? a + Z.of_nat k)%Z && (a + Z.of_nat k <? 25)%Z);
      cbn [List.length]; rewrite IHl; reflexivity. }
  rewrite F. split; [lia|].
  pose proof (filter_length_le
                (fun a => (0 <=? a + Z.of_nat k)%Z && (a + Z.of_nat k <? 25)%Z)
                (computeChildrenSchedule data)).
  lia.
Qed.

Lemma active_children_by_year_witness :
  ProjectionPoint.activeChildren
    (yearPoint Services 2026 familyOfFive neutral 88 (initialLocals familyOfFive))
  = Z.of_nat (List.length
                (filter (fun a => (0 <=? a + Z.of_nat 0)%Z && (a + Z.of_nat 0 <? 25)%Z)
                        (computeChildrenSchedule familyOfFive))).
Proof.
  apply (active_children_by_year Services 2026 familyOfFive neutral 0).
  vm_compute. reflexivity.
Defined.

(** ** The rent in closed form *)

Section Rent.
Variable variant : Variant.
Variable startYear : Z.
Variable data : FinancialData.
Variable scenario : ScenarioType.

Local Abbreviation after' := (localsAfter variant startYear data scenario).
Local Abbreviation rate :=
  (1 + (housingCostIncrease data + inflationModPct (modifiers scenario)) / 100).

Lemma currentRent_after (k : nat) :
  (k <= horizon data)%nat ->
  currentRent (after' k)
  == currentHousingCost data * rate ^ Z.of_nat k
     * (if hasMovedHouse (after' k) then 1.30 else 1).
Proof.
  induction k as [|k IH]; intro Hk.
  - cbn [localsAfter forLoop initialLocals currentRent hasMovedHouse].
    change (rate ^ Z.of_nat 0) with 1. ring.
  - rewrite localsAfter_S by lia.
    rewrite body_currentRent, body_hasMovedHouse.
    unfold rentCharged, inflatedRent. rewrite moves_unfold.
    specialize (IH ltac:(lia)).
    replace (Z.of_nat (S k)) with (Z.of_nat k + 1)%Z by lia.
    rewrite Qpower_plus' by lia. rewrite Qpower_1_r.
    destruct (hasMovedHouse (after' k)); cbn [negb andb].
    + rewrite IH. ring.
    + destruct (outgrows variant data (after' k)); rewrite IH; ring.
Qed.

End Rent.

(** The housing expenses of simulation year [k] are twelve times the
    initial rent compounded [k + 1] times at the yearly rate, times 1.30
    once the relocation has fired (in that year or an earlier one). *)
Theorem housing_expenses_closed_form
        (variant : Variant) (startYear : Z) (data : FinancialData)
        (scenario : ScenarioType) (k : nat) (pt : ProjectionPoint.t) :
  nth_error (ScenarioResult.data (calculateProjections variant startYear data scenario)) k
  = Some pt ->
  ProjectionPoint.housingExpenses pt
  == currentHousingCost data
     * (1 + (housingCostIncrease data + inflationModPct (modifiers scenario)) / 100)
       ^ (Z.of_nat k + 1)
     * (if hasMovedHouse (localsAfter variant startYear data scenario (S k))
        then 1.30 else 1)
     * 12.
Proof.
  intro H.
  assert (L : (k < horizon data)%nat).
  { rewrite <- (data_length variant startYear data scenario).
    apply nth_error_Some. congruence. }
  rewrite data_nth in H by exact L. injection H as <-.
  cbn [yearPoint ProjectionPoint.housingExpenses].
  rewrite <- (body_currentRent variant startYear data scenario (ageAt data k)).
  rewrite <- localsAfter_S by exact L.
  rewrite currentRent_after by lia.
  replace (Z.of_nat (S k)) with (Z.of_nat k + 1)%Z by lia. reflexivity.
Qed.

(** ** Incomes from one year to the next *)

Section Incomes.
Variable variant : Variant.
Variable startYear : Z.
Variable data : FinancialData.
Variable scenario : ScenarioType.

Local Abbreviation after' := (localsAfter variant startYear data scenario).
Local Abbreviation phase' := (yearPhase variant data scenario).
Local Abbreviation result' := (calculateProjections variant startYear data scenario).

Lemma nth_point (k : nat) (pt : ProjectionPoint.t) :
  nth_error (ScenarioResult.data result') k = Some pt ->
  (k < horizon data)%nat
  /\ pt = yearPoint variant startYear data scenario (ageAt data k) (after' k).
Proof.
  intro H.
  assert (L : (k < horizon data)%nat).
  { rewrite <- (data_length variant startYear data scenario).
    apply nth_error_Some. congruence. }
  split; [exact L|]. rewrite data_nth in H by exact L. congruence.
Qed.

(** The locals a year starts with are those the year before left. *)
Lemma after_S_fields (k : nat) :
  (k < horizon data)%nat ->
  let st2 := fst (phase' (ageAt data k) (after' k)) in
  grossSalary1 (after' (S k)) = grossSalary1 st2
  /\ grossSalary2 (after' (S k)) = grossSalary2 st2
  /\ grossBonus (after' (S k)) = grossBonus st2
  /\ pillar2Wealth (after' (S k)) = pillar2Wealth st2
  /\ pillar3Wealth (after' (S k)) = pillar3Wealth st2
  /\ cashBuffer (after' (S k)) = cashBuffer st2
  /\ investedWealth (after' (S k)) = investedWealth st2
  /\ lppAnnualPensionSnapshot (after' (S k)) = lppAnnualPensionSnapshot st2
  /\ pillar3AnnualDrawdownSnapshot (after' (S k)) = pillar3AnnualDrawdownSnapshot st2.
Proof.
  intro L. rewrite localsAfter_S by exact L. rewrite body_unfold.
  cbv zeta. repeat split.
Qed.

End Incomes.

(** The salary and bonus figures of a working year's snapshot are those of
    the year after: when the next year is a working year too, its net
    income is the sum of the salaries and the bonus reported this year. *)
Theorem reported_salaries_are_next_years
        (variant : Variant) (startYear : Z) (data : FinancialData)
        (scenario : ScenarioType) (k : nat) (pk pk1 : ProjectionPoint.t) :
  nth_error (ScenarioResult.data (calculateProjections variant startYear data scenario)) k
  = Some pk ->
  nth_error (ScenarioResult.data (calculateProjections variant startYear data scenario)) (S k)
  = Some pk1 ->
  (ProjectionPoint.age pk1 < retirementAge data)%Z ->
  ProjectionPoint.totalIncome pk1
  = ProjectionPoint.salary1 pk + ProjectionPoint.salary2 pk + ProjectionPoint.bonus pk.
Proof.
  intros Hk Hk1 W.
  apply nth_point in Hk. destruct Hk as [Lk ->].
  apply nth_point in Hk1. destruct Hk1 as [Lk1 ->].
  cbn [yearPoint ProjectionPoint.age ProjectionPoint.totalIncome ProjectionPoint.salary1
       ProjectionPoint.salary2 ProjectionPoint.bonus] in *.
  destruct (after_S_fields variant startYear data scenario k Lk)
    as (S1 & S2 & B & _).
  assert (Wk : (retirementAge data <=? ageAt data k)%Z = false)
    by (apply Z.leb_gt; unfold ageAt in *; lia).
  assert (Wk1 : (retirementAge data <=? ageAt data (S k))%Z = false)
    by (apply Z.leb_gt; lia).
  rewrite Wk. rewrite <- S1, <- S2, <- B.
  unfold yearPhase. rewrite Wk1. cbn [negb].
  unfold workingPhase. cbn [snd totalIncomeNet afterHousing grossSalary1 grossSalary2
                            grossBonus]. reflexivity.
Qed.

Lemma reported_salaries_are_next_years_witness :
  ProjectionPoint.totalIncome
    (yearPoint Services 2026 familyOfFive neutral 89
               (localsAfter Services 2026 familyOfFive neutral 1))
  = ProjectionPoint.salary1
      (yearPoint Services 2026 familyOfFive neutral 88 (initialLocals familyOfFive))
    + ProjectionPoint.salary2
        (yearPoint Services 2026 familyOfFive neutral 88 (initialLocals familyOfFive))
    + ProjectionPoint.bonus
        (yearPoint Services 2026 familyOfFive neutral 88 (initialLocals familyOfFive)).
Proof.
  apply (reported_salaries_are_next_years Services 2026 familyOfFive neutral 0).
  - vm_compute. reflexivity.
  - vm_compute. reflexivity.
  - vm_compute. reflexivity.
Defined.

(** In a retired year's snapshot the salaries and the bonus are 0, the
    gross income is the sum of the three pensions, the net income is 85
    percent of it and the yearly savings are the net income less the total
    expenses; in a working year's snapshot the three pensions are 0. *)
Theorem income_by_phase
        (variant : Variant) (startYear : Z) (data : FinancialData)
        (scenario : ScenarioType) (k : nat) (pt : ProjectionPoint.t) :
  nth_error (ScenarioResult.data (calculateProjections variant startYear data scenario)) k
  = Some pt ->
  ((retirementAge data <= ProjectionPoint.age pt)%Z ->
   ProjectionPoint.salary1 pt = 0 /\ ProjectionPoint.salary2 pt = 0
   /\ ProjectionPoint.bonus pt = 0
   /\ ProjectionPoint.totalGrossIncome pt = ProjectionPoint.pension pt
   /\ ProjectionPoint.totalIncome pt = ProjectionPoint.pension pt * 0.85
   /\ ProjectionPoint.yearlySavings pt
      = ProjectionPoint.totalIncome pt - ProjectionPoint.totalExpenses pt)
  /\ ((ProjectionPoint.age pt < retirementAge data)%Z ->
      ProjectionPoint.pensionAHV pt = 0 /\ ProjectionPoint.pensionLPP pt = 0
      /\ ProjectionPoint.pension3a pt = 0).
Proof.
  intro H. apply nth_point in H. destruct H as [L ->].
  cbn [yearPoint ProjectionPoint.age ProjectionPoint.salary1 ProjectionPoint.salary2
       ProjectionPoint.bonus ProjectionPoint.totalGrossIncome ProjectionPoint.pension
       ProjectionPoint.totalIncome ProjectionPoint.yearlySavings
       ProjectionPoint.totalExpenses ProjectionPoint.pensionAHV
       ProjectionPoint.pensionLPP ProjectionPoint.pension3a].
  unfold yearPhase. split; intro A.
  - destruct (Z.leb_spec (retirementAge data) (ageAt data k)); [|lia]. cbn [negb].
    repeat split; reflexivity.
  - destruct (Z.leb_spec (retirementAge data) (ageAt data k)); [lia|]. cbn [negb].
    repeat split; reflexivity.
Qed.

Lemma income_by_phase_witness :
  ProjectionPoint.pensionAHV
    (yearPoint Services 2026 lateCareer neutral 89 (initialLocals lateCareer)) = 0.
Proof.
  apply (income_by_phase Services 2026 lateCareer neutral 0).
  - vm_compute. reflexivity.
  - vm_compute. reflexivity.
Defined.

(** The occupational annuity paid from the first retired year on is 5.8
    percent of the pillar-2 wealth reported in the last working year. *)
Theorem annuity_from_last_working_year
        (variant : Variant) (startYear : Z) (data : FinancialData)
        (scenario : ScenarioType) (k : nat) (pk pk1 : ProjectionPoint.t) :
  nth_error (ScenarioResult.data (calculateProjections variant startYear data scenario)) k
  = Some pk ->
  nth_error (ScenarioResult.data (calculateProjections variant startYear data scenario)) (S k)
  = Some pk1 ->
  (ProjectionPoint.age pk < retirementAge data <= ProjectionPoint.age pk1)%Z ->
  ProjectionPoint.pensionLPP pk1
  = ProjectionPoint.pillar2Wealth pk * LPP_CONVERSION_RATE.
Proof.
  intros Hk Hk1 A.
  apply nth_point in Hk. destruct Hk as [Lk ->].
  apply nth_point in Hk1. destruct Hk1 as [Lk1 ->].
  cbn [yearPoint ProjectionPoint.age ProjectionPoint.pensionLPP
       ProjectionPoint.pillar2Wealth] in *.
  destruct (after_S_fields variant startYear data scenario k Lk)
    as (_ & _ & _ & P2 & _).
  rewrite <- P2.
  assert (F : retirementSnapshotTaken (localsAfter variant startYear data scenario (S k))
              = false).
  { destruct (retirementSnapshotTaken (localsAfter variant startYear data scenario (S k)))
      eqn:E; [|reflexivity].
    apply snapshotTaken_after in E; [|lia]. unfold ageAt in *. lia. }
  unfold yearPhase.
  destruct (Z.leb_spec (retirementAge data) (ageAt data (S k))); [|lia]. cbn [negb].
  unfold retirementPhase.
  cbn [snd pensionLPP afterHousing retirementSnapshotTaken pillar2Wealth].
  rewrite F. reflexivity.
Qed.

Lemma annuity_from_last_working_year_witness :
  ProjectionPoint.pensionLPP
    (yearPoint Services 2026 lateCareer neutral 90
               (localsAfter Services 2026 lateCareer neutral 1))
  = ProjectionPoint.pillar2Wealth
      (yearPoint Services 2026 lateCareer neutral 89 (initialLocals lateCareer))
    * LPP_CONVERSION_RATE.
Proof.
  apply (annuity_from_last_working_year Services 2026 lateCareer neutral 0).
  - vm_compute. reflexivity.
  - vm_compute. reflexivity.
  - vm_compute. split; [reflexivity | discriminate].
Defined.

(** For a profile with non-negative amounts of money, a salary increase
    of at least -99.5 percent and a canton that finds a number in the tax
    table: the private drawdown of a retired year never exceeds the
    pillar-3 wealth left by the year before, and what it leaves is that
    wealth less the drawdown, grown at three tenths of the effective
    return. *)
Theorem pillar3_drawdown_accounting
        (variant : Variant) (startYear : Z) (data : FinancialData)
        (scenario : ScenarioType) (k : nat) (pk pk1 : ProjectionPoint.t) :
  nonnegMonetary data ->
  -99.5 <= orElse (expectedSalaryIncrease data) 1.5 ->
  taxFactorIsNumber data = true ->
  nth_error (ScenarioResult.data (calculateProjections variant startYear data scenario)) k
  = Some pk ->
  nth_error (ScenarioResult.data (calculateProjections variant startYear data scenario)) (S k)
  = Some pk1 ->
  (retirementAge data <= ProjectionPoint.age pk1)%Z ->
  ProjectionPoint.pension3a pk1 <= ProjectionPoint.pillar3Wealth pk
  /\ ProjectionPoint.pillar3Wealth pk1
     == (ProjectionPoint.pillar3Wealth pk - ProjectionPoint.pension3a pk1)
        * (1 + effectiveInvestmentReturnPct data scenario / 100 * 0.3).
Proof.
  intros M G N Hk Hk1 A.
  apply nth_point in Hk. destruct Hk as [Lk ->].
  apply nth_point in Hk1. destruct Hk1 as [Lk1 ->].
  cbn [yearPoint ProjectionPoint.age ProjectionPoint.pension3a
       ProjectionPoint.pillar3Wealth] in *.
  destruct (after_S_fields variant startYear data scenario k Lk)
    as (_ & _ & _ & _ & P3 & _).
  rewrite <- P3.
  destruct (after_nonneg variant startYear data scenario M G N (S k) ltac:(lia))
    as ((_ & _ & _ & _ & N3 & _) & _).
  set (st := localsAfter variant startYear data scenario (S k)) in *.
  unfold yearPhase.
  destruct (Z.leb_spec (retirementAge data) (ageAt data (S k))); [|lia]. cbn [negb].
  unfold retirementPhase.
  cbn [fst snd pension3a pillar3Wealth afterHousing retirementSnapshotTaken
       pillar3AnnualDrawdownSnapshot].
  match goal with
  | |- ?x <= _ /\ _ => assert (X : x <= pillar3Wealth st)
  end.
  { destruct variant; [unfold Math.min|]; qcases; lra. }
  split; [exact X|].
  unfold Math.max at 1. qcase; [reflexivity | lra].
Qed.

Lemma pillar3_drawdown_accounting_witness :
  ProjectionPoint.pension3a
    (yearPoint Services 2026 lateCareer neutral 90
               (localsAfter Services 2026 lateCareer neutral 1))
  <= ProjectionPoint.pillar3Wealth
       (yearPoint Services 2026 lateCareer neutral 89 (initialLocals lateCareer)).
Proof.
  apply (pillar3_drawdown_accounting Services 2026 lateCareer neutral 0).
  - unfold nonnegMonetary. repeat split; vm_compute; discriminate.
  - vm_compute. discriminate.
  - vm_compute. reflexivity.
  - vm_compute. reflexivity.
  - vm_compute. reflexivity.
  - vm_compute. discriminate.
Defined.

(** ** The early-retirement scan on the store *)

Section SearchOnStore.
Variable variant : Variant.
Variable startYear : Z.

(** Cloning and then overwriting the clone's retirement age leaves every
    earlier object as it was. *)
Lemma clone_then_write (s : Store.t) (d d' : FinancialData) :
  Store.extends s (Store.write (s ++ [Store.Profile d]) (List.length s) d')
  /\ Store.read (Store.write (s ++ [Store.Profile d]) (List.length s) d') (List.length s)
     = Some d'.
Proof.
  unfold Store.write, Store.read, Store.get. split.
  - intros r x H. pose proof (get_in_range _ _ _ H).
    unfold Store.get in *.
    rewrite nth_put_other by lia.
    rewrite nth_error_app1 by lia. exact H.
  - rewrite nth_put_same by (rewrite length_app; cbn; lia). reflexivity.
Qed.

Lemma searchLoopOn_pure (r : Store.Ref) (d : FinancialData) (fuel : nat)
      (testAge : Z) (s : Store.t) :
  Store.read s r = Some d ->
  exists s',
    searchLoopOn variant startYear r (lastTestAge variant d) fuel testAge s
    = Some (searchLoop variant startYear d fuel testAge, s')
    /\ Store.extends s s'.
Proof.
  revert testAge s. induction fuel as [|fuel IH]; intros testAge s H.
  - exists s. split; [reflexivity | apply extends_refl].
  - cbn [searchLoopOn searchLoop].
    destruct (testAge <=? lastTestAge variant d)%Z;
      [|exists s; split; [reflexivity | apply extends_refl]].
    unfold cloneOn. rewrite H. unfold Store.alloc.
    pose proof (get_alloc_new s (Store.Profile (clone d))) as N.
    unfold Store.alloc in N. cbn [fst snd] in N.
    unfold Store.read at 1. rewrite N.
    destruct (clone_then_write s (clone d) (setRetirementAge (clone d) testAge))
      as [Ext Rd].
    cbv zeta.
    destruct (calculateProjectionsOn_spec variant startYear _ neutral _ _ Rd)
      as (s3 & E3 & X3).
    rewrite E3.
    fold (testRun variant startYear d testAge).
    pose proof (extends_trans _ _ _ Ext X3) as X.
    destruct (accepts variant (testRun variant startYear d testAge)).
    + exists s3. split; [reflexivity | exact X].
    + destruct (IH (testAge + 1)%Z s3 (extends_read _ _ _ _ X H)) as (s' & E & Ext').
      exists s'. split; [exact E | exact (extends_trans _ _ _ X Ext')].
Qed.

End SearchOnStore.

(** [calculateViableEarlyRetirement] writes every candidate retirement age
    into a fresh clone: through a reference it returns what the function
    computes from the profile's value, and every object of the store, the
    caller's profile included, is afterwards as it was. *)
Theorem search_leaves_profile_unchanged
        (variant : Variant) (startYear : Z) (s : Store.t) (r : Store.Ref)
        (d : FinancialData) :
  Store.read s r = Some d ->
  exists s',
    calculateViableEarlyRetirementOn variant startYear r s
    = Some (calculateViableEarlyRetirement variant startYear d, s')
    /\ Store.extends s s'
    /\ Store.read s' r = Some d.
Proof.
  intro H. unfold calculateViableEarlyRetirementOn. rewrite H.
  destruct (searchLoopOn_pure variant startYear r d
              (Z.to_nat (lastTestAge variant d + 1 - firstTestAge variant))
              (firstTestAge variant) s H) as (s' & E & Ext).
  exists s'. split; [exact E|]. split; [exact Ext | exact (extends_read _ _ _ _ Ext H)].
Qed.

Lemma search_leaves_profile_unchanged_witness :
  exists s',
    calculateViableEarlyRetirementOn Services 2026 0%nat [Store.Profile lastYear]
    = Some (calculateViableEarlyRetirement Services 2026 lastYear, s')
    /\ Store.extends [Store.Profile lastYear] s'
    /\ Store.read s' 0%nat = Some lastYear.
Proof.
  apply (search_leaves_profile_unchanged Services 2026 [Store.Profile lastYear] 0%nat
           lastYear).
  reflexivity.
Defined.

(** ** The depletion age *)

Lemma find_snoc {A : Type} (f : A -> bool) (l : list A) (x : A) :
  find f (l ++ [x])
  = match find f l with
    | Some y => Some y
    | None => if f x then Some x else None
    end.
Proof.
  induction l as [|a l IH]; cbn; [reflexivity|].
  destruct (f a); [reflexivity | exact IH].
Qed.

Lemma savingsDepletedAge_after
      (variant : Variant) (startYear : Z) (data : FinancialData)
      (scenario : ScenarioType) (k : nat) :
  (k <= horizon data)%nat ->
  savingsDepletedAge (localsAfter variant startYear data scenario k)
  = option_map ProjectionPoint.age
               (find (depletedAt variant)
                     (points (localsAfter variant startYear data scenario k))).
Proof.
  induction k as [|k IH]; intro Hk.
  - reflexivity.
  - rewrite localsAfter_S by lia. rewrite body_points, find_snoc.
    rewrite body_unfold. cbn [savingsDepletedAge].
    destruct (phase_frame variant data scenario (ageAt data k)
                (localsAfter variant startYear data scenario k))
      as (_ & _ & _ & _ & _ & D).
    unfold depletes. rewrite D, IH by lia.
    destruct (find (depletedAt variant)
                   (points (localsAfter variant startYear data scenario k))) as [y|].
    + cbn [option_map]. rewrite !andb_false_r. reflexivity.
    + cbn [option_map]. rewrite andb_true_r.
      unfold depletedAt.
      cbn [yearPoint ProjectionPoint.totalWealth ProjectionPoint.cashSavings
           ProjectionPoint.investedAssets ProjectionPoint.pillar3Wealth].
      match goal with
      | |- (if ?b then _ else _) = _ => destruct b; reflexivity
      end.
Qed.

(** The depletion age of a result is the age of the first snapshot that
    passes the depletion test, and null when no snapshot passes it; later
    snapshots that pass the test do not change it. *)
Theorem depletion_age_is_first
        (variant : Variant) (startYear : Z) (data : FinancialData)
        (scenario : ScenarioType) :
  ScenarioResult.savingsDepletedAge (calculateProjections variant startYear data scenario)
  = option_map ProjectionPoint.age
      (find (depletedAt variant)
            (ScenarioResult.data (calculateProjections variant startYear data scenario))).
Proof.
  apply (savingsDepletedAge_after variant startYear data scenario (horizon data)). lia.
Qed.

(** ** A higher investment return, year by year *)

(** With non-negative amounts of money, a higher baseline investment return
    lowers no year's total wealth, cash savings, invested assets or pillar-3
    wealth in the neutral run, and changes no year's pillar-2 wealth. *)
Theorem every_year_monotone_in_return
        (startYear : Z) (data : FinancialData) (r1 r2 : Q) (k : nat)
        (p q : ProjectionPoint.t) :
  nonnegMonetary data ->
  r1 <= r2 ->
  nth_error (ScenarioResult.data
               (calculateProjections Services startYear (setInvestmentReturn data r1) neutral))
            k = Some p ->
  nth_error (ScenarioResult.data
               (calculateProjections Services startYear (setInvestmentReturn data r2) neutral))
            k = Some q ->
  ProjectionPoint.totalWealth p <= ProjectionPoint.totalWealth q
  /\ ProjectionPoint.cashSavings p <= ProjectionPoint.cashSavings q
  /\ ProjectionPoint.investedAssets p <= ProjectionPoint.investedAssets q
  /\ ProjectionPoint.pillar3Wealth p <= ProjectionPoint.pillar3Wealth q
  /\ ProjectionPoint.pillar2Wealth p = ProjectionPoint.pillar2Wealth q.
Proof.
  intros M H Hp Hq.
  apply nth_point in Hp. destruct Hp as [L ->].
  apply nth_point in Hq. destruct Hq as [_ ->].
  change (horizon (setInvestmentReturn data r1)) with (horizon data) in L.
  change (ageAt (setInvestmentReturn data r1) k) with (ageAt data k).
  change (ageAt (setInvestmentReturn data r2) k) with (ageAt data k).
  assert (F : retirementSnapshotTaken
                (localsAfter Services startYear (setInvestmentReturn data r1) neutral k)
              = true -> (retirementAge data <= ageAt data k)%Z).
  { intro T.
    apply (snapshotTaken_after Services startYear (setInvestmentReturn data r1) neutral k)
      in T; [|change (horizon (setInvestmentReturn data r1)) with (horizon data); lia].
    change (retirementAge (setInvestmentReturn data r1)) with (retirementAge data) in T.
    change (ageAt (setInvestmentReturn data r1) k) with (ageAt data k) in T. lia. }
  pose proof (after_returnOrdered startYear data r1 r2 M H k ltac:(lia)) as R.
  pose proof (yearWealth_returnOrdered data r1 r2 M H (ageAt data k) _ _ R F) as W.
  destruct (phase_returnOrdered data r1 r2 M H (ageAt data k) _ _ R F)
    as ((_ & _ & _ & P2 & _) & (C & I & P3) & _).
  cbn [yearPoint ProjectionPoint.totalWealth ProjectionPoint.cashSavings
       ProjectionPoint.investedAssets ProjectionPoint.pillar3Wealth
       ProjectionPoint.pillar2Wealth].
  split; [exact W|]. split; [lra|]. split; [lra|]. split; [lra | exact P2].
Qed.

Lemma every_year_monotone_in_return_witness :
  ProjectionPoint.totalWealth
    (yearPoint Services 2026 (setInvestmentReturn lateCareer 2) neutral 89
               (initialLocals (setInvestmentReturn lateCareer 2)))
  <= ProjectionPoint.totalWealth
       (yearPoint Services 2026 (setInvestmentReturn lateCareer 6) neutral 89
                  (initialLocals (setInvestmentReturn lateCareer 6))).
Proof.
  apply (every_year_monotone_in_return 2026 lateCareer 2 6 0
           (yearPoint Services 2026 (setInvestmentReturn lateCareer 2) neutral 89
               (initialLocals (setInvestmentReturn lateCareer 2)))
           (yearPoint Services 2026 (setInvestmentReturn lateCareer 6) neutral 89
                  (initialLocals (setInvestmentReturn lateCareer 6)))).
  - unfold nonnegMonetary; repeat split; vm_compute; discriminate.
  - vm_compute; discriminate.
  - vm_compute; reflexivity.
  - vm_compute; reflexivity.
Defined.
Lemma first_snapshot_order_witness :
  ProjectionPoint.totalWealth
    (yearPoint Services 2026 lateCareer pessimistic 89 (initialLocals lateCareer))
  <= ProjectionPoint.totalWealth
       (yearPoint Services 2026 lateCareer optimistic 89 (initialLocals lateCareer)).
Proof.
  apply (first_snapshot_order Services 2026 lateCareer).
  - unfold nonnegMonetary. repeat split; vm_compute; discriminate.
  - vm_compute. reflexivity.
  - vm_compute. reflexivity.
Defined.

Lemma housing_expenses_closed_form_witness :
  ProjectionPoint.housingExpenses
    (yearPoint Services 2026 familyOfFive neutral 88 (initialLocals familyOfFive))
  == currentHousingCost familyOfFive
     * (1 + (housingCostIncrease familyOfFive + inflationModPct (modifiers neutral)) / 100)
       ^ (Z.of_nat 0 + 1)
     * (if hasMovedHouse (localsAfter Services 2026 familyOfFive neutral 1)
        then 1.30 else 1)
     * 12.
Proof.
  apply (housing_expenses_closed_form Services 2026 familyOfFive neutral 0
           (yearPoint Services 2026 familyOfFive neutral 88 (initialLocals familyOfFive))).
  vm_compute. reflexivity.
Defined.
